(** * ACController: NEC infrared frames for an air conditioner

    A shallow embedding of [src/whatever.py] (class [ACController]).

    - Python integers are [Z]; [>>] is [Z.shiftr] (both round towards
      minus infinity), [&] is [Z.land], and an integer used as a condition
      is true when it is not zero.
    - A pulse list is a [list Z] of durations in microseconds.
    - The calls into the pigpio daemon, [print] and [time.sleep] are events
      of a trace; what the daemon answers (a value or an exception) is a
      parameter of every run. *)

From Stdlib Require Import ZArith List Bool Ascii String Lia.
Import ListNotations.
Local Open Scope Z_scope.

(** ** Python helpers *)

(** Truth value of an integer used as a condition. *)
Definition truthy (z : Z) : bool := negb (z =? 0).

(** [range(n)], as the list of its values. *)
Definition range (n : nat) : list Z := map Z.of_nat (seq 0 n).

(** ** NEC frame construction ([send_nec_command], lines 57-85) *)

Definition header_mark : Z := 9000.
Definition header_space : Z := 4500.
Definition bit_mark : Z := 560.
Definition one_space : Z := 1690.
Definition zero_space : Z := 560.

(** One of the four loops
    [for i in range(8):
         pulses.append(bit_mark)
         pulses.append(if_set if (value >> i) & 1 else if_clear)].
    The address and command loops take [if_set = one_space] and
    [if_clear = zero_space]; the two inverted loops swap them. *)
Definition bits_loop (if_set if_clear value : Z) (pulses : list Z) : list Z :=
  fold_left
    (fun pulses i =>
       (pulses ++ [bit_mark])
         ++ [if truthy (Z.land (Z.shiftr value i) 1) then if_set else if_clear])
    (range 8) pulses.

(** The list [pulses] as it stands after line 85, when it is handed to
    [send_raw_code]. *)
Definition nec_pulses (address command : Z) : list Z :=
  let pulses := [header_mark; header_space] in
  let pulses := bits_loop one_space zero_space address pulses in
  let pulses := bits_loop zero_space one_space address pulses in
  let pulses := bits_loop one_space zero_space command pulses in
  let pulses := bits_loop zero_space one_space command pulses in
  pulses ++ [bit_mark].

(** ** Vocabulary of the frame layout

    These definitions are not in the source: they name what the protocol
    description says about a frame, so that the source's frame can be
    compared with it. *)

(** What one loop appends, written with [Z.testbit]. *)
Definition section (if_set if_clear value : Z) : list Z :=
  flat_map
    (fun i => [bit_mark; if Z.testbit value i then if_set else if_clear])
    (range 8).

(** The one's-complement of a byte, masked to 8 bits: [(~b) & 0xFF]. *)
Definition complement8 (b : Z) : Z := Z.land (Z.lnot b) 255.

(** The space that stands for one bit. *)
Definition space_of_bit (b : bool) : Z := if b then one_space else zero_space.

(** The 16 entries that encode a byte, bit 0 first: a 560 us mark, then a
    1690 us space for a 1 bit and a 560 us space for a 0 bit. *)
Definition encode_byte (b : Z) : list Z :=
  flat_map (fun i => [bit_mark; space_of_bit (Z.testbit b i)]) (range 8).

(** Receiver side: read a section of (mark, space) pairs back into a number,
    first pair = bit 0; a space of 1690 us is a 1, any other space a 0. *)
Fixpoint decode_section (section : list Z) : Z :=
  match section with
  | _ :: space :: rest =>
      (if space =? one_space then 1 else 0) + 2 * decode_section rest
  | _ => 0
  end.

(** Entries [from+1 .. from+len] (1-based) of a frame. *)
Definition entries (from len : nat) (pulses : list Z) : list Z :=
  firstn len (skipn from pulses).

(** ** Strings and dictionaries

    A [str] is a [string]: its characters are the code points below 256.
    [lower] is [str.lower] on that range: the letters A-Z and the capital
    letters of Latin-1 (U+00C0-U+00DE without the multiplication sign
    U+00D7) move up by 32, every other character stays. *)

Definition lower_char (c : ascii) : ascii :=
  let n := N_of_ascii c in
  if (((65 <=? n) && (n <=? 90))
      || ((192 <=? n) && (n <=? 222) && negb (n =? 215)))%N
  then ascii_of_N (n + 32) else c.

Fixpoint lower (s : string) : string :=
  match s with
  | EmptyString => EmptyString
  | String c s' => String (lower_char c) (lower s')
  end.

(** A dict literal with string keys, in insertion order. *)
Definition dict := list (string * Z).

Definition keys (d : dict) : list string := map fst d.

(** [d[key]], [None] standing for KeyError. *)
Fixpoint getitem (d : dict) (key : string) : option Z :=
  match d with
  | [] => None
  | (k, v) :: d' => if String.eqb key k then Some v else getitem d' key
  end.

(** [key in d]. *)
Definition contains (d : dict) (key : string) : bool :=
  existsb (String.eqb key) (keys d).

(** The dict [modes] of [set_mode]. *)
Definition modes : dict :=
  [("cool", 0x30); ("heat", 0x31); ("fan", 0x32); ("dry", 0x33);
   ("auto", 0x34)]%string.

(** The dict [speeds] of [set_fan_speed]. *)
Definition speeds : dict :=
  [("low", 0x40); ("medium", 0x41); ("high", 0x42); ("auto", 0x43)]%string.

(** ** The world outside: pigpio, stdout and the clock *)

(** [pigpio.pulse(gpio_on, gpio_off, delay)]. *)
Record pulse : Type := mk_pulse { gpio_on : Z; gpio_off : Z; delay : Z }.

(** The methods of [self.pi] that the class calls, with their arguments;
    [pigpio_pi] is the constructor [pigpio.pi()], answering [connected]. *)
Inductive pigpio_call : Type :=
| pigpio_pi
| hardware_PWM (gpio : N) (PWMfreq PWMduty : Z)
| wave_clear
| wave_add_generic (pulses : list pulse)
| wave_create
| wave_send_once (wave_id : Z)
| wave_tx_busy
| wave_delete (wave_id : Z)
| stop.

(** What [print] is given. *)
Inductive message : Type :=
| Sending_Power_ON
| Sending_Power_OFF
| Temperature_out_of_range
| Setting_temperature (temp : Z)
| Invalid_mode (choose_from : list string)
| Setting_mode (mode : string)
| Invalid_speed (choose_from : list string)
| Setting_fan_speed (speed : string).

Inductive event : Type :=
| call (c : pigpio_call)
| print (m : message)
| sleep (milliseconds : Z).

Inductive exn : Type :=
| Exception (msg : string)
| KeyError (key : string)
| pigpio_error (code : Z).

(** The answer to a call: a value (0 where the method returns nothing) or
    an exception. *)
Inductive response : Type :=
| returns (v : Z)
| raises (e : exn).

(** The daemon: its answer to a call, given the calls made before it
    (oldest first). *)
Definition daemon : Type := list pigpio_call -> pigpio_call -> response.

Fixpoint calls_of (trace : list event) : list pigpio_call :=
  match trace with
  | [] => []
  | call c :: trace' => c :: calls_of trace'
  | _ :: trace' => calls_of trace'
  end.

(** ** Computations: a trace of events, an exception, or no end *)

Inductive outcome (A : Type) : Type :=
| Normal (a : A)
| Raised (e : exn)
| OutOfFuel.
Arguments Normal {A} a.
Arguments Raised {A} e.
Arguments OutOfFuel {A}.

Definition M (A : Type) : Type := daemon -> list event -> outcome A * list event.

Definition ret {A : Type} (a : A) : M A := fun _ trace => (Normal a, trace).

Definition bind {A B : Type} (m : M A) (k : A -> M B) : M B :=
  fun d trace =>
    match m d trace with
    | (Normal a, trace') => k a d trace'
    | (Raised e, trace') => (Raised e, trace')
    | (OutOfFuel, trace') => (OutOfFuel, trace')
    end.

Notation "x <- m ;; k" := (bind m (fun x => k))
  (at level 61, m at next level, right associativity).
Notation "m ;; k" := (bind m (fun _ => k))
  (at level 61, right associativity).

Definition raise {A : Type} (e : exn) : M A := fun _ trace => (Raised e, trace).

Definition out_of_fuel {A : Type} : M A := fun _ trace => (OutOfFuel, trace).

(** A call into pigpio: it is recorded, and the daemon answers it. *)
Definition invoke (c : pigpio_call) : M Z :=
  fun d trace =>
    match d (calls_of trace) c with
    | returns v => (Normal v, trace ++ [call c])
    | raises e => (Raised e, trace ++ [call c])
    end.

(** [print] and [time.sleep]: recorded, never failing. *)
Definition emit (e : event) : M unit := fun _ trace => (Normal tt, trace ++ [e]).

(** ** class ACController *)

Record ACController : Type := mk_ACController { gpio_pin : N; carrier_freq : Z }.

(** [__init__]. *)
Definition init (gpio_pin : N) : M ACController :=
  connected <- invoke pigpio_pi ;;
  if negb (truthy connected)
  then raise (Exception "Failed to connect to pigpio daemon. Run: sudo pigpiod")
  else ret {| gpio_pin := gpio_pin; carrier_freq := 38000 |}.

(** The list comprehension of [send_raw_code]: entry [i] switches the pin
    on for [pulses[i]] when [i] is even and off when it is odd. *)
Definition wave_of (self : ACController) (pulses : list Z) : list pulse :=
  map (fun i =>
         if i mod 2 =? 0
         then mk_pulse (Z.shiftl 1 (Z.of_N (gpio_pin self))) 0
                       (nth (Z.to_nat i) pulses 0)
         else mk_pulse 0 (Z.shiftl 1 (Z.of_N (gpio_pin self)))
                       (nth (Z.to_nat i) pulses 0))
      (range (List.length pulses)).

(** [while self.pi.wave_tx_busy(): time.sleep(0.01)], at most [fuel]
    polls. *)
Fixpoint wait_while_busy (fuel : nat) : M unit :=
  match fuel with
  | O => out_of_fuel
  | S fuel' =>
      busy <- invoke wave_tx_busy ;;
      if truthy busy then emit (sleep 10) ;; wait_while_busy fuel'
      else ret tt
  end.

Definition send_raw_code (fuel : nat) (self : ACController) (pulses : list Z)
  : M unit :=
  invoke wave_clear ;;
  invoke (wave_add_generic (wave_of self pulses)) ;;
  wave_id <- invoke wave_create ;;
  if wave_id >=? 0 then
    invoke (wave_send_once wave_id) ;;
    wait_while_busy fuel ;;
    invoke (wave_delete wave_id) ;;
    ret tt
  else ret tt.

Definition send_nec_command (fuel : nat) (self : ACController)
    (address command : Z) : M unit :=
  let pulses := nec_pulses address command in
  invoke (hardware_PWM (gpio_pin self) (carrier_freq self) 500000) ;;
  send_raw_code fuel self pulses ;;
  invoke (hardware_PWM (gpio_pin self) 0 0) ;;
  ret tt.

Definition power_on (fuel : nat) (self : ACController) : M unit :=
  emit (print Sending_Power_ON) ;;
  send_nec_command fuel self 0x00 0x08.

Definition power_off (fuel : nat) (self : ACController) : M unit :=
  emit (print Sending_Power_OFF) ;;
  send_nec_command fuel self 0x00 0x09.

Definition set_temperature (fuel : nat) (self : ACController) (temp : Z)
  : M unit :=
  if negb ((16 <=? temp) && (temp <=? 30)) then
    emit (print Temperature_out_of_range) ;;
    ret tt
  else
    emit (print (Setting_temperature temp)) ;;
    let command := 0x10 + (temp - 16) in
    send_nec_command fuel self 0x00 command.

(** [d[key]] as a computation. *)
Definition subscript (d : dict) (key : string) : M Z :=
  match getitem d key with
  | Some v => ret v
  | None => raise (KeyError key)
  end.

Definition set_mode (fuel : nat) (self : ACController) (mode : string)
  : M unit :=
  if negb (contains modes (lower mode)) then
    emit (print (Invalid_mode (keys modes))) ;;
    ret tt
  else
    emit (print (Setting_mode mode)) ;;
    command <- subscript modes (lower mode) ;;
    send_nec_command fuel self 0x00 command.

Definition set_fan_speed (fuel : nat) (self : ACController) (speed : string)
  : M unit :=
  if negb (contains speeds (lower speed)) then
    emit (print (Invalid_speed (keys speeds))) ;;
    ret tt
  else
    emit (print (Setting_fan_speed speed)) ;;
    command <- subscript speeds (lower speed) ;;
    send_nec_command fuel self 0x00 command.

Definition cleanup (self : ACController) : M unit :=
  invoke stop ;; ret tt.

(** ** Properties of runs *)

(** The two carrier calls of [send_nec_command]. *)
Definition carrier_on (self : ACController) : event :=
  call (hardware_PWM (gpio_pin self) (carrier_freq self) 500000).

Definition carrier_off (self : ACController) : event :=
  call (hardware_PWM (gpio_pin self) 0 0).

(** An event that is not a call of [hardware_PWM]. *)
Definition not_PWM (e : event) : Prop :=
  match e with
  | call (hardware_PWM _ _ _) => False
  | _ => True
  end.

(** A computation is confined to [P] when every run of it only adds events
    that satisfy [P] to the trace, and an exception it ends with is the
    daemon's answer to the last call made. *)
Definition confined {A : Type} (P : event -> Prop) (m : M A) : Prop :=
  forall d trace, exists new,
    snd (m d trace) = trace ++ new
    /\ Forall P new
    /\ match fst (m d trace) with
       | Raised e =>
           exists before c,
             new = before ++ [call c]
             /\ d (calls_of (trace ++ before)) c = raises e
       | _ => True
       end.

(** A computation looks at the trace only through the pigpio calls in it:
    started on two traces with the same calls, it ends the same way and
    has made the same calls. *)
Definition hardware_determined {A : Type} (m : M A) : Prop :=
  forall d t1 t2,
    calls_of t1 = calls_of t2 ->
    fst (m d t1) = fst (m d t2)
    /\ calls_of (snd (m d t1)) = calls_of (snd (m d t2)).

(** A daemon that answers every call with a value. *)
Definition accepting (d : daemon) : Prop :=
  forall before c, exists v, d before c = returns v.

(** Polling [wave_tx_busy] after the calls [before], the daemon stops
    answering busy within [n] polls. *)
Fixpoint idle_within (d : daemon) (before : list pigpio_call) (n : nat)
  : bool :=
  match n with
  | O => false
  | S n' =>
      match d before wave_tx_busy with
      | returns busy =>
          if truthy busy then idle_within d (before ++ [wave_tx_busy]) n'
          else true
      | raises _ => true
      end
  end.

(** ** Daemons and controllers to run the code on *)

(** Every call returns 0: connected is false, the wave id is 0, the
    transmitter is never busy. *)
Definition idle_daemon : daemon := fun _ _ => returns 0.

(** As [idle_daemon], but [wave_create] raises. *)
Definition no_wave_daemon : daemon :=
  fun _ c =>
    match c with
    | wave_create => raises (pigpio_error (-67))
    | _ => returns 0
    end.

(** As [idle_daemon], but switching the carrier on raises. *)
Definition no_pwm_daemon : daemon :=
  fun _ c =>
    match c with
    | hardware_PWM _ 38000 _ => raises (pigpio_error (-95))
    | _ => returns 0
    end.

(** The controller of the example script: [ACController(gpio_pin=17)]. *)
Definition ac : ACController := {| gpio_pin := 17; carrier_freq := 38000 |}.

(** ** More vocabulary for frames and runs *)

(** The time a pulse list takes, in microseconds. *)
Definition duration (pulses : list Z) : Z := fold_right Z.add 0 pulses.

(** [k] rounds of the busy loop of [send_raw_code]: a poll, then the
    10 ms sleep. *)
Fixpoint busy_rounds (k : nat) : list event :=
  match k with
  | O => []
  | S k' => call wave_tx_busy :: sleep 10 :: busy_rounds k'
  end.

(** The calls among [busy_rounds k]. *)
Definition polls (k : nat) : list pigpio_call := repeat wave_tx_busy k.

(** A daemon that answers every poll with busy. *)
Definition always_busy (d : daemon) : Prop :=
  forall before, exists busy, d before wave_tx_busy = returns busy /\ busy <> 0.

(** A daemon whose [wave_create] answers a wave id. *)
Definition creates_waves (d : daemon) : Prop :=
  forall before, exists wave_id,
    d before wave_create = returns wave_id /\ 0 <= wave_id.

(** A daemon whose [wave_create] answers a negative number. *)
Definition creates_no_wave (d : daemon) : Prop :=
  forall before, exists wave_id,
    d before wave_create = returns wave_id /\ wave_id < 0.

(** As [idle_daemon], but the transmitter stays busy. *)
Definition busy_daemon : daemon :=
  fun _ c =>
    match c with
    | wave_tx_busy => returns 1
    | _ => returns 0
    end.

(** As [idle_daemon], but [wave_create] answers -1. *)
Definition no_id_daemon : daemon :=
  fun _ c =>
    match c with
    | wave_create => returns (-1)
    | _ => returns 0
    end.

(** The number of polls at the end of [before], counted from [n]. *)
Fixpoint polls_since_send (before : list pigpio_call) (n : nat) : nat :=
  match before with
  | [] => n
  | wave_tx_busy :: before' => polls_since_send before' (S n)
  | _ :: before' => polls_since_send before' O
  end.

(** As [idle_daemon], but connected, handing out wave id 3, and busy for
    the first two polls of each transmission. *)
Definition working_daemon : daemon :=
  fun before c =>
    match c with
    | pigpio_pi => returns 1
    | wave_create => returns 3
    | wave_tx_busy =>
        if (polls_since_send before 0 <? 2)%nat then returns 1 else returns 0
    | _ => returns 0
    end.

(** An event that neither opens nor closes the connection to the
    daemon. *)
Definition keeps_connection (e : event) : Prop :=
  match e with
  | call pigpio_pi | call stop => False
  | _ => True
  end.

(** Every run of [m] only adds events that satisfy [P] to the trace. *)
Definition adds_only {A : Type} (P : event -> Prop) (m : M A) : Prop :=
  forall d trace, exists new,
    snd (m d trace) = trace ++ new /\ Forall P new.

(** ** Examples *)

Example nec_pulses_0_8 :
  nec_pulses 0 8 =
    [9000; 4500;
     560; 560; 560; 560; 560; 560; 560; 560;
     560; 560; 560; 560; 560; 560; 560; 560;
     560; 1690; 560; 1690; 560; 1690; 560; 1690;
     560; 1690; 560; 1690; 560; 1690; 560; 1690;
     560; 560; 560; 560; 560; 560; 560; 1690;
     560; 560; 560; 560; 560; 560; 560; 560;
     560; 1690; 560; 1690; 560; 1690; 560; 560;
     560; 1690; 560; 1690; 560; 1690; 560; 1690;
     560].
Proof. reflexivity. Qed.

(** ** Bit-level facts *)

Lemma truthy_bit (value i : Z) :
  0 <= i -> truthy (Z.land (Z.shiftr value i) 1) = Z.testbit value i.
Proof.
  intros Hi. unfold truthy.
  change 1 with (Z.ones 1). rewrite Z.land_ones by lia.
  change (2 ^ 1) with 2. rewrite <- Z.bit0_mod.
  rewrite Z.shiftr_spec by lia. rewrite Z.add_0_l.
  now destruct (Z.testbit value i).
Qed.

Lemma range_bounds (n : nat) (i : Z) : In i (range n) -> 0 <= i < Z.of_nat n.
Proof.
  unfold range. rewrite in_map_iff. intros [k [<- Hk]].
  apply in_seq in Hk. lia.
Qed.

Lemma complement8_bit (b i : Z) :
  0 <= i < 8 -> Z.testbit (complement8 b) i = negb (Z.testbit b i).
Proof.
  intros Hi. unfold complement8.
  rewrite Z.land_spec, Z.lnot_spec by lia.
  change 255 with (Z.ones 8). rewrite Z.ones_spec_low by lia.
  apply andb_true_r.
Qed.

Lemma low_byte_bit (b i : Z) :
  0 <= i < 8 -> Z.testbit (b mod 256) i = Z.testbit b i.
Proof.
  intros Hi. change 256 with (2 ^ 8). apply Z.mod_pow2_bits_low. lia.
Qed.

(** ** The frame, section by section *)

Lemma fold_append (if_set if_clear value : Z) (l : list Z) :
  Forall (fun i => 0 <= i) l ->
  forall pulses,
    fold_left
      (fun pulses i =>
         (pulses ++ [bit_mark])
           ++ [if truthy (Z.land (Z.shiftr value i) 1) then if_set else if_clear])
      l pulses
    = pulses ++ flat_map
        (fun i => [bit_mark; if Z.testbit value i then if_set else if_clear]) l.
Proof.
  induction 1 as [|i l Hi _ IH]; intros pulses; simpl.
  - now rewrite app_nil_r.
  - rewrite IH, truthy_bit by exact Hi. now rewrite <- !app_assoc.
Qed.

Lemma bits_loop_section (if_set if_clear value : Z) (pulses : list Z) :
  bits_loop if_set if_clear value pulses
  = pulses ++ section if_set if_clear value.
Proof.
  unfold bits_loop, section. apply fold_append.
  apply Forall_forall. intros i Hi. apply range_bounds in Hi. lia.
Qed.

Lemma nec_pulses_sections (address command : Z) :
  nec_pulses address command
  = [header_mark; header_space]
      ++ section one_space zero_space address
      ++ section zero_space one_space address
      ++ section one_space zero_space command
      ++ section zero_space one_space command
      ++ [bit_mark].
Proof.
  unfold nec_pulses. rewrite !bits_loop_section. now rewrite <- !app_assoc.
Qed.

Lemma section_ext (s c s' c' v v' : Z) :
  (forall i, 0 <= i < 8 ->
     (if Z.testbit v i then s else c) = (if Z.testbit v' i then s' else c')) ->
  section s c v = section s' c' v'.
Proof.
  intros H. unfold section. rewrite !flat_map_concat_map. f_equal.
  apply map_ext_in. intros i Hi. apply range_bounds in Hi.
  now rewrite H by (simpl in Hi; lia).
Qed.

Lemma section_encode_byte (value : Z) :
  section one_space zero_space value = encode_byte value.
Proof. reflexivity. Qed.

(** An inverted loop appends the encoding of the complemented byte. *)
Lemma section_inverted (value : Z) :
  section zero_space one_space value = encode_byte (complement8 value).
Proof.
  rewrite <- section_encode_byte. apply section_ext. intros i Hi.
  rewrite complement8_bit by exact Hi. now destruct (Z.testbit value i).
Qed.

Lemma nec_pulses_layout (address command : Z) :
  nec_pulses address command
  = [header_mark; header_space]
      ++ encode_byte address
      ++ encode_byte (complement8 address)
      ++ encode_byte command
      ++ encode_byte (complement8 command)
      ++ [bit_mark].
Proof.
  rewrite nec_pulses_sections.
  now rewrite !section_inverted, !section_encode_byte.
Qed.

Lemma length_section (s c v : Z) : List.length (section s c v) = 16%nat.
Proof. reflexivity. Qed.

(** ** Reading a section back *)

Lemma space_of_bit_is_one (b : bool) :
  (if space_of_bit b =? one_space then 1 else 0) = Z.b2z b.
Proof. now destruct b. Qed.

Lemma decode_bits_from (x : Z) (n s : nat) :
  decode_section
    (flat_map (fun i => [bit_mark; space_of_bit (Z.testbit x i)])
       (map Z.of_nat (seq s n)))
  = Z.shiftr x (Z.of_nat s) mod 2 ^ Z.of_nat n.
Proof.
  revert s. induction n as [|n IH]; intros s.
  - cbn [seq map flat_map decode_section]. now rewrite Z.mod_1_r.
  - cbn [seq map flat_map app decode_section].
    rewrite IH, space_of_bit_is_one, !Nat2Z.inj_succ, Z.pow_succ_r by lia.
    rewrite Z.rem_mul_r by lia.
    rewrite <- Z.bit0_mod, Z.shiftr_spec, Z.add_0_l by lia.
    rewrite <- (Z.shiftr_div_pow2 _ 1), Z.shiftr_shiftr by lia.
    reflexivity.
Qed.

Lemma decode_encode_byte (b : Z) : decode_section (encode_byte b) = b mod 256.
Proof.
  unfold encode_byte, range. rewrite decode_bits_from.
  now rewrite Z.shiftr_0_r.
Qed.

Lemma complement8_range (b : Z) : 0 <= complement8 b < 256.
Proof.
  unfold complement8. change 255 with (Z.ones 8).
  rewrite Z.land_ones by lia. apply Z.mod_pos_bound. lia.
Qed.

Lemma decode_complement (b : Z) :
  decode_section (encode_byte (complement8 b)) = complement8 b.
Proof.
  rewrite decode_encode_byte. apply Z.mod_small, complement8_range.
Qed.

(** ** The four byte sections of a frame *)

Lemma entries_address (a c : Z) :
  entries 2 16 (nec_pulses a c) = section one_space zero_space a.
Proof. rewrite nec_pulses_sections. reflexivity. Qed.

Lemma entries_inverted_address (a c : Z) :
  entries 18 16 (nec_pulses a c) = section zero_space one_space a.
Proof. rewrite nec_pulses_sections. reflexivity. Qed.

Lemma entries_command (a c : Z) :
  entries 34 16 (nec_pulses a c) = section one_space zero_space c.
Proof. rewrite nec_pulses_sections. reflexivity. Qed.

Lemma entries_inverted_command (a c : Z) :
  entries 50 16 (nec_pulses a c) = section zero_space one_space c.
Proof. rewrite nec_pulses_sections. reflexivity. Qed.

(** Bit [i] of a section: a mark, then the space chosen by bit [i]. *)
Lemma section_bit (s c v : Z) (i : nat) :
  (i < 8)%nat ->
  entries (2 * i) 2 (section s c v)
  = [bit_mark; if Z.testbit v (Z.of_nat i) then s else c].
Proof.
  intros Hi.
  do 8 (destruct i as [|i]; [reflexivity|]). lia.
Qed.

Lemma entries_entries (from len from' len' : nat) (l : list Z) :
  (from' + len' <= len)%nat ->
  entries from' len' (entries from len l) = entries (from + from') len' l.
Proof.
  intros H. unfold entries.
  rewrite skipn_firstn_comm, firstn_firstn, skipn_skipn.
  f_equal; [lia | f_equal; lia].
Qed.

(** ** Claims about the frame *)

(** C3. The pulse list that [send_nec_command] builds has exactly 67
    entries: 2 for the header, 2 for each of the 32 bits, 1 for the stop
    mark.  This holds for every pair of integers, so in particular for
    every pair of 8-bit values. *)
Theorem nec_pulses_length (address command : Z) :
  List.length (nec_pulses address command) = 67%nat
  /\ (67 = 2 + 32 * 2 + 1)%nat.
Proof.
  split; [|reflexivity]. rewrite nec_pulses_sections.
  rewrite !length_app, !length_section. reflexivity.
Qed.

(** C4. The first two entries of the pulse list are 9000 and 4500, and the
    last entry, at index 66 (an even index: a mark, with no space after
    it), is 560. *)
Theorem nec_pulses_header_and_stop (address command : Z) :
  firstn 2 (nec_pulses address command) = [9000; 4500]
  /\ last (nec_pulses address command) 0 = 560
  /\ nth 66 (nec_pulses address command) 0 = 560
  /\ skipn 66 (nec_pulses address command) = [560].
Proof.
  rewrite nec_pulses_sections. repeat split; reflexivity.
Qed.

(** C1. The inverted-address section (entries 19-34) and the
    inverted-command section (entries 51-66) are the bit encoding of
    [(~b) & 0xFF] for the byte [b] they belong to: at bit position [i] the
    mark is 560 and the space is 1690 when bit [i] of [b] is 0 and 560 when
    it is 1, and reading the section back gives [(~b) & 0xFF]. *)
Theorem inverted_sections_encode_complement (a c : Z) :
  0 <= a < 256 -> 0 <= c < 256 ->
  entries 18 16 (nec_pulses a c) = encode_byte (complement8 a)
  /\ entries 50 16 (nec_pulses a c) = encode_byte (complement8 c)
  /\ (forall i, (i < 8)%nat ->
        entries (18 + 2 * i) 2 (nec_pulses a c)
        = [560; if Z.testbit a (Z.of_nat i) then 560 else 1690]
        /\ entries (50 + 2 * i) 2 (nec_pulses a c)
           = [560; if Z.testbit c (Z.of_nat i) then 560 else 1690])
  /\ decode_section (entries 18 16 (nec_pulses a c)) = complement8 a
  /\ decode_section (entries 50 16 (nec_pulses a c)) = complement8 c.
Proof.
  intros _ _.
  rewrite entries_inverted_address, entries_inverted_command.
  rewrite !section_inverted, !decode_complement.
  repeat split.
  - rewrite <- (entries_entries 18 16) by lia.
    rewrite entries_inverted_address. now apply section_bit.
  - rewrite <- (entries_entries 50 16) by lia.
    rewrite entries_inverted_command. now apply section_bit.
Qed.

Lemma inverted_sections_encode_complement_witness :
  0 <= 0x5A < 256 /\ 0 <= 0x30 < 256
  /\ entries 18 16 (nec_pulses 0x5A 0x30) = encode_byte 0xA5
  /\ entries (18 + 2 * 1) 2 (nec_pulses 0x5A 0x30) = [560; 560]
  /\ decode_section (entries 50 16 (nec_pulses 0x5A 0x30)) = 0xCF.
Proof.
  destruct (inverted_sections_encode_complement 0x5A 0x30)
    as (Ha & _ & Hbit & _ & Hc); [lia | lia |].
  split; [lia|]. split; [lia|]. split; [exact Ha|]. split; [|exact Hc].
  apply (Hbit 1%nat). lia.
Defined.

(** C2. Every byte field is sent least significant bit first: the pair of
    entries number [i] of the address, inverted-address, command and
    inverted-command sections is the 560 us mark followed by the space
    for bit [i] of the field's byte, bit 0 coming first and bit 7 last.
    For address 0x01 the first address pair is (560, 1690); for address
    0x80 it is (560, 560). *)
Theorem bytes_are_sent_lsb_first (a c : Z) :
  0 <= a < 256 -> 0 <= c < 256 ->
  (forall i, (i < 8)%nat ->
     entries (2 + 2 * i) 2 (nec_pulses a c)
     = [560; space_of_bit (Z.testbit a (Z.of_nat i))]
     /\ entries (18 + 2 * i) 2 (nec_pulses a c)
        = [560; space_of_bit (Z.testbit (complement8 a) (Z.of_nat i))]
     /\ entries (34 + 2 * i) 2 (nec_pulses a c)
        = [560; space_of_bit (Z.testbit c (Z.of_nat i))]
     /\ entries (50 + 2 * i) 2 (nec_pulses a c)
        = [560; space_of_bit (Z.testbit (complement8 c) (Z.of_nat i))])
  /\ entries 2 2 (nec_pulses a c) = [560; space_of_bit (Z.testbit a 0)]
  /\ entries 16 2 (nec_pulses a c) = [560; space_of_bit (Z.testbit a 7)]
  /\ entries 2 2 (nec_pulses 0x01 c) = [560; 1690]
  /\ entries 2 2 (nec_pulses 0x80 c) = [560; 560].
Proof.
  intros _ _. split; [|rewrite !nec_pulses_sections; repeat split].
  intros i Hi.
  rewrite <- (entries_entries 2 16), <- (entries_entries 18 16),
    <- (entries_entries 34 16), <- (entries_entries 50 16) by lia.
  rewrite entries_address, entries_inverted_address, entries_command,
    entries_inverted_command.
  rewrite !section_inverted.
  repeat split.
  - exact (section_bit one_space zero_space a i Hi).
  - exact (section_bit one_space zero_space (complement8 a) i Hi).
  - exact (section_bit one_space zero_space c i Hi).
  - exact (section_bit one_space zero_space (complement8 c) i Hi).
Qed.

Lemma bytes_are_sent_lsb_first_witness :
  0 <= 0x01 < 256 /\ 0 <= 0x30 < 256
  /\ entries 2 2 (nec_pulses 0x01 0x30) = [560; 1690]
  /\ entries (34 + 2 * 4) 2 (nec_pulses 0x01 0x30) = [560; 1690].
Proof.
  destruct (bytes_are_sent_lsb_first 0x01 0x30)
    as (Hbit & _ & _ & H01 & _); [lia | lia |].
  split; [lia|]. split; [lia|]. split; [exact H01|].
  apply (Hbit 4%nat). lia.
Defined.

(** ** Runs of the monadic code *)

Lemma calls_of_app (t u : list event) :
  calls_of (t ++ u) = calls_of t ++ calls_of u.
Proof.
  induction t as [|[c|m|ms] t IH]; simpl; now rewrite ?IH.
Qed.

Section Confined.
Context {A B : Type} (P : event -> Prop).

Lemma confined_ret (a : A) : confined P (ret a).
Proof.
  intros d tr. exists []. cbn. now rewrite app_nil_r.
Qed.

Lemma confined_out_of_fuel : confined P (@out_of_fuel A).
Proof.
  intros d tr. exists []. cbn. now rewrite app_nil_r.
Qed.

Lemma confined_emit (e : event) : P e -> confined P (emit e).
Proof.
  intros He d tr. exists [e]. cbn. auto.
Qed.

Lemma confined_invoke (c : pigpio_call) : P (call c) -> confined P (invoke c).
Proof.
  intros Hc d tr. exists [call c]. unfold invoke.
  destruct (d (calls_of tr) c) as [v|e] eqn:E; cbn; repeat split; auto.
  exists [], c. now rewrite app_nil_r.
Qed.

Lemma confined_bind (m : M A) (k : A -> M B) :
  confined P m -> (forall a, confined P (k a)) -> confined P (bind m k).
Proof.
  intros Hm Hk d tr. unfold bind.
  destruct (Hm d tr) as (new & Htr & HP & Hraise).
  destruct (m d tr) as [[a|e|] tr1]; cbn in Htr, Hraise; subst tr1.
  - destruct (Hk a d (tr ++ new)) as (new2 & Htr2 & HP2 & Hraise2).
    exists (new ++ new2). rewrite Htr2, app_assoc. repeat split.
    + apply Forall_app; auto.
    + destruct (fst (k a d (tr ++ new))); trivial.
      destruct Hraise2 as (before & c & -> & Hd).
      exists (new ++ before), c. now rewrite !app_assoc in *.
  - exists new. cbn. auto.
  - exists new. cbn. auto.
Qed.
End Confined.

Lemma confined_wait_while_busy (fuel : nat) :
  confined not_PWM (wait_while_busy fuel).
Proof.
  induction fuel as [|fuel IH]; cbn [wait_while_busy].
  - apply confined_out_of_fuel.
  - apply confined_bind; [now apply confined_invoke|]. intros busy.
    destruct (truthy busy).
    + apply confined_bind; [now apply confined_emit | intros _; exact IH].
    + apply confined_ret.
Qed.

(** [send_raw_code] never switches the carrier. *)
Lemma confined_send_raw_code (fuel : nat) (self : ACController)
    (pulses : list Z) :
  confined not_PWM (send_raw_code fuel self pulses).
Proof.
  unfold send_raw_code.
  repeat (apply confined_bind; [now apply confined_invoke | intros ?]).
  destruct (_ >=? 0); [|apply confined_ret].
  apply confined_bind; [now apply confined_invoke | intros _].
  apply confined_bind; [apply confined_wait_while_busy | intros _].
  apply confined_bind; [now apply confined_invoke | intros _].
  apply confined_ret.
Qed.

(** What [k] adds comes after what [m] has added. *)
Lemma bind_trace {A B : Type} (P : event -> Prop) (m : M A) (k : A -> M B) :
  (forall a, confined P (k a)) ->
  forall d trace, exists more,
    snd (bind m k d trace) = snd (m d trace) ++ more.
Proof.
  intros Hk d tr. unfold bind.
  destruct (m d tr) as [[a|e|] tr1]; cbn [snd].
  - destruct (Hk a d tr1) as (new & -> & _). now exists new.
  - exists []. now rewrite app_nil_r.
  - exists []. now rewrite app_nil_r.
Qed.

Lemma invoke_trace (c : pigpio_call) (d : daemon) (trace : list event) :
  snd (invoke c d trace) = trace ++ [call c].
Proof. unfold invoke. now destruct (d (calls_of trace) c). Qed.

(** The pulses reach the daemon once the wave table is cleared. *)
Lemma send_raw_code_submits (fuel : nat) (self : ACController)
    (pulses : list Z) (d : daemon) (trace : list event) (v : Z) :
  d (calls_of trace) wave_clear = returns v ->
  exists rest,
    snd (send_raw_code fuel self pulses d trace)
    = trace ++ [call wave_clear; call (wave_add_generic (wave_of self pulses))]
            ++ rest.
Proof.
  intros Hclear. unfold send_raw_code, bind at 1, invoke at 1.
  rewrite Hclear.
  match goal with
  | |- context [bind ?m ?k _ ?t] =>
      destruct (bind_trace not_PWM m k) with (d := d) (trace := t)
        as (rest & ->)
  end.
  - intros wave_id'.
    apply confined_bind; [now apply confined_invoke | intros wave_id].
    destruct (_ >=? 0); [|apply confined_ret].
    apply confined_bind; [now apply confined_invoke | intros _].
    apply confined_bind; [apply confined_wait_while_busy | intros _].
    apply confined_bind; [now apply confined_invoke | intros _].
    apply confined_ret.
  - rewrite invoke_trace. exists rest. now rewrite <- !app_assoc.
Qed.

Lemma not_PWM_not_carrier_off (self : ACController) (new : list event) :
  Forall not_PWM new -> ~ In (carrier_off self) new.
Proof.
  intros H Hin. rewrite Forall_forall in H. exact (H _ Hin).
Qed.

Lemma carrier_on_is_not_off (self : ACController) :
  carrier_on self <> carrier_off self.
Proof. unfold carrier_on, carrier_off. intros H. discriminate H. Qed.

(** How a run of [send_nec_command] can end. *)
Lemma send_nec_command_runs (fuel : nat) (self : ACController)
    (address command : Z) (d : daemon) (trace : list event) :
  match send_nec_command fuel self address command d trace with
  | (Normal _, trace') =>
      exists mid,
        trace' = trace ++ [carrier_on self] ++ mid ++ [carrier_off self]
        /\ ~ In (carrier_off self) mid
  | (Raised e, trace') =>
      exists before c,
        trace' = trace ++ before ++ [call c]
        /\ d (calls_of (trace ++ before)) c = raises e
        /\ ~ In (carrier_off self) before
  | (OutOfFuel, trace') =>
      exists new,
        trace' = trace ++ carrier_on self :: new
        /\ ~ In (carrier_off self) new
  end.
Proof.
  unfold send_nec_command, bind at 1, invoke at 1. fold (carrier_on self).
  destruct (d (calls_of trace) _) as [v|e] eqn:Eon.
  - unfold bind at 1.
    destruct (confined_send_raw_code fuel self (nec_pulses address command)
                d (trace ++ [carrier_on self])) as (new & Htr & HP & Hraise).
    destruct (send_raw_code _ _ _ _ _) as [[[]|e|] tr1];
      cbn in Htr, Hraise; subst tr1.
    + unfold bind, invoke, ret. fold (carrier_off self).
      destruct (d (calls_of ((trace ++ _) ++ new)) _) as [v'|e] eqn:Eoff.
      * exists new. rewrite <- !app_assoc. split; [reflexivity|].
        now apply not_PWM_not_carrier_off.
      * exists ([carrier_on self] ++ new), (hardware_PWM (gpio_pin self) 0 0).
        rewrite <- !app_assoc in *. repeat split; trivial.
        intros [H|H]%in_app_or.
        -- destruct H as [H|[]]. now apply carrier_on_is_not_off in H.
        -- revert H. now apply not_PWM_not_carrier_off.
    + destruct Hraise as (before & c & -> & Hd).
      exists ([carrier_on self] ++ before), c.
      rewrite <- !app_assoc in *. repeat split; trivial.
      apply Forall_app in HP as [HP _].
      intros [H|H]%in_app_or.
      * destruct H as [H|[]]. now apply carrier_on_is_not_off in H.
      * revert H. now apply not_PWM_not_carrier_off.
    + exists new. rewrite <- app_assoc. split; [reflexivity|].
      now apply not_PWM_not_carrier_off.
  - exists [], (hardware_PWM (gpio_pin self) (carrier_freq self) 500000).
    rewrite !app_nil_r. repeat split; trivial. intros [].
Qed.


(** The frame of [nec_pulses] reaches the daemon once the carrier is on
    and the wave table is cleared. *)
Lemma send_nec_command_submits (fuel : nat) (self : ACController)
    (address command : Z) (d : daemon) (trace : list event) (v v' : Z) :
  d (calls_of trace)
    (hardware_PWM (gpio_pin self) (carrier_freq self) 500000) = returns v ->
  d (calls_of (trace ++ [carrier_on self])) wave_clear = returns v' ->
  exists rest,
    snd (send_nec_command fuel self address command d trace)
    = trace ++ [carrier_on self; call wave_clear;
                call (wave_add_generic
                        (wave_of self (nec_pulses address command)))]
            ++ rest.
Proof.
  intros Hon Hclear.
  unfold send_nec_command, bind at 1, invoke at 1.
  rewrite Hon. fold (carrier_on self).
  match goal with
  | |- context [bind ?m ?k _ ?t] =>
      destruct (bind_trace (fun _ => True) m k) with (d := d) (trace := t)
        as (more & ->)
  end.
  - intros _. apply confined_bind; [now apply confined_invoke | intros _].
    apply confined_ret.
  - destruct (send_raw_code_submits fuel self
                (nec_pulses address command) d _ v' Hclear) as (rest & ->).
    exists (rest ++ more). now rewrite <- !app_assoc.
Qed.

(** The wave carries the pulse durations unchanged, marks on even
    entries and spaces on odd ones. *)
Lemma wave_of_delays (self : ACController) (pulses : list Z) :
  map delay (wave_of self pulses) = pulses.
Proof.
  unfold wave_of, range. rewrite !map_map.
  rewrite (map_ext _ (fun n => nth n pulses 0)).
  - apply nth_ext with (d := nth 0 pulses 0) (d' := 0).
    + now rewrite length_map, length_seq.
    + intros n Hn. rewrite length_map, length_seq in Hn.
      pose proof (map_nth (fun n => nth n pulses 0)
                    (seq 0 (List.length pulses)) 0%nat n) as E.
      cbv beta in E. rewrite E, seq_nth by exact Hn. reflexivity.
  - intros n. rewrite Nat2Z.id. now destruct (_ =? 0).
Qed.

(** ** Runs depend on the trace through its pigpio calls only *)

Section HardwareDetermined.
Context {A B : Type}.

Lemma determined_ret (a : A) : hardware_determined (ret a).
Proof. intros d t1 t2 H. now split. Qed.

Lemma determined_raise (e : exn) : hardware_determined (@raise A e).
Proof. intros d t1 t2 H. now split. Qed.

Lemma determined_out_of_fuel : hardware_determined (@out_of_fuel A).
Proof. intros d t1 t2 H. now split. Qed.

Lemma determined_invoke (c : pigpio_call) : hardware_determined (invoke c).
Proof.
  intros d t1 t2 H. unfold invoke. rewrite H.
  destruct (d (calls_of t2) c); cbn; rewrite !calls_of_app, H; now split.
Qed.

Lemma determined_bind (m : M A) (k : A -> M B) :
  hardware_determined m -> (forall a, hardware_determined (k a)) ->
  hardware_determined (bind m k).
Proof.
  intros Hm Hk d t1 t2 H. unfold bind.
  destruct (Hm d t1 t2 H) as [Ho Ht].
  destruct (m d t1) as [o1 t1'], (m d t2) as [o2 t2'].
  cbn in Ho, Ht. subst o2.
  destruct o1 as [a|e|]; cbn; [now apply Hk | now split | now split].
Qed.
End HardwareDetermined.

Lemma determined_print (m : message) : hardware_determined (emit (print m)).
Proof.
  intros d t1 t2 H. cbn. rewrite !calls_of_app, H. now split.
Qed.

Lemma determined_sleep (ms : Z) : hardware_determined (emit (sleep ms)).
Proof.
  intros d t1 t2 H. cbn. rewrite !calls_of_app, H. now split.
Qed.

Lemma determined_wait_while_busy (fuel : nat) :
  hardware_determined (wait_while_busy fuel).
Proof.
  induction fuel as [|fuel IH]; cbn [wait_while_busy].
  - apply determined_out_of_fuel.
  - apply determined_bind; [apply determined_invoke | intros busy].
    destruct (truthy busy); [|apply determined_ret].
    apply determined_bind; [apply determined_sleep | intros _; exact IH].
Qed.

Lemma determined_send_nec_command (fuel : nat) (self : ACController)
    (address command : Z) :
  hardware_determined (send_nec_command fuel self address command).
Proof.
  unfold send_nec_command, send_raw_code.
  repeat (apply determined_bind; [apply determined_invoke | intros ?]).
  apply determined_bind; [|intros _].
  - repeat (apply determined_bind; [apply determined_invoke | intros ?]).
    destruct (_ >=? 0); [|apply determined_ret].
    apply determined_bind; [apply determined_invoke | intros _].
    apply determined_bind; [apply determined_wait_while_busy | intros _].
    apply determined_bind; [apply determined_invoke | intros _].
    apply determined_ret.
  - apply determined_bind; [apply determined_invoke | intros _].
    apply determined_ret.
Qed.

(** ** Strings and dictionaries *)

Lemma lower_char_idempotent (c : ascii) :
  lower_char (lower_char c) = lower_char c.
Proof. destruct c as [[] [] [] [] [] [] [] []]; reflexivity. Qed.

Lemma lower_idempotent (s : string) : lower (lower s) = lower s.
Proof.
  induction s as [|c s IH]; cbn [lower]; [reflexivity|].
  now rewrite lower_char_idempotent, IH.
Qed.

Lemma contains_In (d : dict) (key : string) :
  contains d key = true <-> In key (keys d).
Proof.
  unfold contains. rewrite existsb_exists. split.
  - intros (k & Hk & E). apply String.eqb_eq in E. now subst.
  - intros H. exists key. split; [exact H | apply String.eqb_refl].
Qed.

Lemma getitem_contains (d : dict) (key : string) (v : Z) :
  getitem d key = Some v -> contains d key = true.
Proof.
  unfold contains, keys.
  induction d as [|[k w] d IH]; cbn; [discriminate|].
  destruct (String.eqb key k); [reflexivity | exact IH].
Qed.

Lemma contains_getitem (d : dict) (key : string) :
  contains d key = true -> exists v, getitem d key = Some v.
Proof.
  unfold contains, keys.
  induction d as [|[k w] d IH]; cbn; [discriminate|].
  destruct (String.eqb key k); [now exists w | exact IH].
Qed.

(** ** Claims about the commands *)

Lemma confined_weaken {A : Type} (P Q : event -> Prop) (m : M A) :
  (forall e, P e -> Q e) -> confined P m -> confined Q m.
Proof.
  intros HPQ Hm d tr. destruct (Hm d tr) as (new & Htr & HP & Hraise).
  exists new. repeat split; trivial.
  revert HP. apply Forall_impl. exact HPQ.
Qed.

(** Every run of [send_nec_command] begins by switching the carrier on. *)
Lemma send_nec_command_begins (fuel : nat) (self : ACController)
    (address command : Z) (d : daemon) (trace : list event) :
  exists more,
    snd (send_nec_command fuel self address command d trace)
    = trace ++ carrier_on self :: more.
Proof.
  unfold send_nec_command.
  match goal with
  | |- context [bind ?m ?k d trace] =>
      destruct (bind_trace (fun _ => True) m k) with (d := d) (trace := trace)
        as (more & ->)
  end.
  - intros _. apply confined_bind; [|intros _].
    + apply confined_weaken with (P := not_PWM); [trivial|].
      apply confined_send_raw_code.
    + apply confined_bind; [now apply confined_invoke | intros _].
      apply confined_ret.
  - rewrite invoke_trace. exists more. now rewrite <- app_assoc.
Qed.

(** With enough fuel the busy loop ends. *)
Lemma wait_while_busy_returns (d : daemon) (fuel : nat) :
  accepting d ->
  forall trace,
    idle_within d (calls_of trace) fuel = true ->
    fst (wait_while_busy fuel d trace) = Normal tt.
Proof.
  intros Hacc. induction fuel as [|fuel IH]; intros trace Hidle.
  - discriminate Hidle.
  - cbn [idle_within] in Hidle. cbn [wait_while_busy].
    unfold bind at 1, invoke.
    destruct (Hacc (calls_of trace) wave_tx_busy) as [busy Hbusy].
    rewrite Hbusy in *. destruct (truthy busy); [|reflexivity].
    unfold bind, emit. apply IH.
    now rewrite !calls_of_app, app_nil_r.
Qed.

Lemma bind_invoke_accepting {B : Type} (c : pigpio_call) (k : Z -> M B)
    (d : daemon) (trace : list event) :
  accepting d ->
  exists v, bind (invoke c) k d trace = k v d (trace ++ [call c]).
Proof.
  intros Hacc. destruct (Hacc (calls_of trace) c) as [v Hv].
  exists v. unfold bind, invoke. now rewrite Hv.
Qed.

(** Run the next pigpio call of the goal on an accepting daemon. *)
Ltac next_call Hacc :=
  match goal with
  | |- context [bind (invoke ?c) ?k ?d ?t] =>
      let v := fresh "v" in
      destruct (bind_invoke_accepting c k d t Hacc) as [v ->]; cbv beta
  end.

Lemma send_raw_code_returns (fuel : nat) (self : ACController)
    (pulses : list Z) (d : daemon) (trace : list event) :
  accepting d ->
  (forall before, idle_within d before fuel = true) ->
  fst (send_raw_code fuel self pulses d trace) = Normal tt.
Proof.
  intros Hacc Hidle. unfold send_raw_code.
  do 3 next_call Hacc.
  destruct (_ >=? 0); [|reflexivity].
  next_call Hacc. unfold bind at 1.
  match goal with
  | |- context [wait_while_busy fuel d ?t] =>
      pose proof (wait_while_busy_returns d fuel Hacc t (Hidle _)) as Hw;
      destruct (wait_while_busy fuel d t) as [o t']
  end.
  cbn [fst] in Hw. subst o.
  next_call Hacc. reflexivity.
Qed.

(** [send_nec_command] is total on an accepting daemon: with enough fuel
    for the busy loop it returns normally, whatever the address and the
    command are. *)
Lemma send_nec_command_returns (fuel : nat) (self : ACController)
    (address command : Z) (d : daemon) (trace : list event) :
  accepting d ->
  (forall before, idle_within d before fuel = true) ->
  fst (send_nec_command fuel self address command d trace) = Normal tt.
Proof.
  intros Hacc Hidle. unfold send_nec_command.
  next_call Hacc. unfold bind at 1.
  match goal with
  | |- context [send_raw_code fuel self ?p d ?t] =>
      pose proof (send_raw_code_returns fuel self p d t Hacc Hidle) as Hraw;
      destruct (send_raw_code fuel self p d t) as [o t']
  end.
  cbn [fst] in Hraw. subst o.
  next_call Hacc. reflexivity.
Qed.

Lemma idle_daemon_accepting : accepting idle_daemon.
Proof. intros before c. now exists 0. Qed.

(** C8. [power_on] prints and sends address 0x00 with command 0x08,
    [power_off] prints and sends address 0x00 with command 0x09; with a
    daemon that accepts every call, the frames of (0x00, 0x08) and of
    (0x00, 0x09) are what reaches it. *)
Theorem power_commands (fuel : nat) (self : ACController) (d : daemon)
    (trace : list event) :
  power_on fuel self d trace
  = send_nec_command fuel self 0x00 0x08 d (trace ++ [print Sending_Power_ON])
  /\ power_off fuel self d trace
     = send_nec_command fuel self 0x00 0x09 d
         (trace ++ [print Sending_Power_OFF])
  /\ In (call (wave_add_generic (wave_of self (nec_pulses 0x00 0x08))))
       (snd (power_on fuel self idle_daemon trace))
  /\ In (call (wave_add_generic (wave_of self (nec_pulses 0x00 0x09))))
       (snd (power_off fuel self idle_daemon trace)).
Proof.
  split; [reflexivity|]. split; [reflexivity|]. split.
  - change (power_on fuel self idle_daemon trace)
      with (send_nec_command fuel self 0x00 0x08 idle_daemon
              (trace ++ [print Sending_Power_ON])).
    destruct (send_nec_command_submits fuel self 0x00 0x08 idle_daemon
                (trace ++ [print Sending_Power_ON]) 0 0 eq_refl eq_refl)
      as (rest & ->).
    apply in_or_app. right. apply in_or_app. left. cbn. auto.
  - change (power_off fuel self idle_daemon trace)
      with (send_nec_command fuel self 0x00 0x09 idle_daemon
              (trace ++ [print Sending_Power_OFF])).
    destruct (send_nec_command_submits fuel self 0x00 0x09 idle_daemon
                (trace ++ [print Sending_Power_OFF]) 0 0 eq_refl eq_refl)
      as (rest & ->).
    apply in_or_app. right. apply in_or_app. left. cbn. auto.
Qed.

(** C6 as stated fails: when [wave_create] raises, the run ends with the
    carrier switched on and never switched off; when carrier activation
    itself raises, no further call is made. *)
Lemma carrier_not_released_on_failure :
  send_nec_command 1 ac 0x00 0x08 no_wave_daemon []
  = (Raised (pigpio_error (-67)),
     [call (hardware_PWM 17 38000 500000);
      call wave_clear;
      call (wave_add_generic (wave_of ac (nec_pulses 0x00 0x08)));
      call wave_create])
  /\ ~ In (call (hardware_PWM 17 0 0))
         (snd (send_nec_command 1 ac 0x00 0x08 no_wave_daemon []))
  /\ send_nec_command 1 ac 0x00 0x08 no_pwm_daemon []
     = (Raised (pigpio_error (-95)), [call (hardware_PWM 17 38000 500000)]).
Proof.
  split; [reflexivity|]. split; [|reflexivity].
  intros [H|[H|[H|[H|[]]]]]; discriminate H.
Qed.

(** C5, as the code has it.  [set_temperature] rejects [temp] exactly
    when [temp < 16] or [temp > 30].  A rejected call prints the
    out-of-range message and returns normally: nothing is raised or
    returned to the caller, no frame is built and no pigpio call is made.
    An accepted call prints and sends address 0x00 with command
    [0x10 + (temp - 16)]: 0x10 for 16 and 0x1E for 30. *)
Theorem set_temperature_checks_range (fuel : nat) (self : ACController)
    (temp : Z) (d : daemon) (trace : list event) :
  ((temp < 16 \/ temp > 30) <->
     set_temperature fuel self temp d trace
     = (Normal tt, trace ++ [print Temperature_out_of_range]))
  /\ ((temp < 16 \/ temp > 30) ->
        calls_of (snd (set_temperature fuel self temp d trace))
        = calls_of trace)
  /\ (16 <= temp <= 30 ->
        set_temperature fuel self temp d trace
        = send_nec_command fuel self 0x00 (0x10 + (temp - 16)) d
            (trace ++ [print (Setting_temperature temp)]))
  /\ set_temperature fuel self 16 d trace
     = send_nec_command fuel self 0x00 0x10 d
         (trace ++ [print (Setting_temperature 16)])
  /\ set_temperature fuel self 30 d trace
     = send_nec_command fuel self 0x00 0x1E d
         (trace ++ [print (Setting_temperature 30)]).
Proof.
  assert (Hout : temp < 16 \/ temp > 30 ->
                 set_temperature fuel self temp d trace
                 = (Normal tt, trace ++ [print Temperature_out_of_range])).
  { intros H. unfold set_temperature.
    replace ((16 <=? temp) && (temp <=? 30)) with false; [reflexivity|].
    symmetry. apply andb_false_iff. lia. }
  assert (Hin : 16 <= temp <= 30 ->
                set_temperature fuel self temp d trace
                = send_nec_command fuel self 0x00 (0x10 + (temp - 16)) d
                    (trace ++ [print (Setting_temperature temp)])).
  { intros H. unfold set_temperature.
    replace ((16 <=? temp) && (temp <=? 30)) with true; [reflexivity|].
    symmetry. apply andb_true_iff. lia. }
  repeat split.
  - exact Hout.
  - intros Hrun.
    destruct (Z_lt_dec temp 16) as [|Hlo]; [now left|].
    destruct (Z_gt_dec temp 30) as [|Hhi]; [now right|].
    exfalso. rewrite Hin in Hrun by lia.
    destruct (send_nec_command_begins fuel self 0x00 (0x10 + (temp - 16)) d
                (trace ++ [print (Setting_temperature temp)])) as (more & E).
    rewrite Hrun in E. cbn [snd] in E. rewrite <- app_assoc in E.
    apply app_inv_head in E. discriminate E.
  - intros H. rewrite Hout by exact H. cbn [snd].
    rewrite calls_of_app. cbn. apply app_nil_r.
  - exact Hin.
Qed.

Lemma set_temperature_checks_range_witness :
  (15 < 16 \/ 15 > 30)
  /\ calls_of (snd (set_temperature 1 ac 15 idle_daemon [])) = calls_of []
  /\ 16 <= 24 <= 30
  /\ set_temperature 1 ac 24 idle_daemon []
     = send_nec_command 1 ac 0x00 0x18 idle_daemon
         [print (Setting_temperature 24)].
Proof.
  destruct (set_temperature_checks_range 1 ac 15 idle_daemon [])
    as (_ & Hcalls & _).
  destruct (set_temperature_checks_range 1 ac 24 idle_daemon [])
    as (_ & _ & Hin & _).
  split; [left; lia|]. split; [apply Hcalls; left; lia|].
  split; [lia|]. apply Hin. lia.
Defined.

(** C5 as stated fails: at 15 degrees nothing fails.  The call returns
    normally, as a call that sends a frame does, and the caller is handed
    no error. *)
Lemma set_temperature_15_returns_normally :
  15 < 16
  /\ set_temperature 1 ac 15 idle_daemon []
     = (Normal tt, [print Temperature_out_of_range])
  /\ (forall e, fst (set_temperature 1 ac 15 idle_daemon []) <> Raised e)
  /\ fst (set_temperature 1 ac 15 idle_daemon [])
     = fst (set_temperature 1 ac 20 idle_daemon []).
Proof.
  split; [lia|]. split; [reflexivity|]. split; [|reflexivity].
  intros e H. discriminate H.
Qed.

(** C7, as the code has it.  A mode or fan speed whose lower-case form is
    not a key of the table is not sent: [set_mode] and [set_fan_speed]
    print the list of valid choices and return normally.  Nothing is
    raised or returned to the caller, no command byte is looked up and no
    pigpio call is made. *)
Theorem unknown_values_are_not_sent (fuel : nat) (self : ACController)
    (value : string) (d : daemon) (trace : list event) :
  (~ In (lower value) (keys modes) ->
     set_mode fuel self value d trace
     = (Normal tt,
        trace ++ [print (Invalid_mode
                           ["cool"; "heat"; "fan"; "dry"; "auto"]%string)])
     /\ calls_of (snd (set_mode fuel self value d trace)) = calls_of trace)
  /\ (~ In (lower value) (keys speeds) ->
        set_fan_speed fuel self value d trace
        = (Normal tt,
           trace ++ [print (Invalid_speed
                              ["low"; "medium"; "high"; "auto"]%string)])
        /\ calls_of (snd (set_fan_speed fuel self value d trace))
           = calls_of trace).
Proof.
  split; intros Hout.
  - assert (E : contains modes (lower value) = false).
    { destruct (contains modes (lower value)) eqn:E; [|reflexivity].
      now apply contains_In in E. }
    unfold set_mode. rewrite E. cbn. split; [reflexivity|].
    rewrite calls_of_app. apply app_nil_r.
  - assert (E : contains speeds (lower value) = false).
    { destruct (contains speeds (lower value)) eqn:E; [|reflexivity].
      now apply contains_In in E. }
    unfold set_fan_speed. rewrite E. cbn. split; [reflexivity|].
    rewrite calls_of_app. apply app_nil_r.
Qed.

Lemma not_a_mode_or_speed :
  ~ In (lower "Turbo") (keys modes) /\ ~ In (lower "Turbo") (keys speeds).
Proof.
  split; intros H; cbn in H;
    repeat (destruct H as [H|H]; [discriminate H|]); exact H.
Qed.

Lemma unknown_values_are_not_sent_witness :
  ~ In (lower "Turbo") (keys modes)
  /\ ~ In (lower "Turbo") (keys speeds)
  /\ calls_of (snd (set_mode 1 ac "Turbo" idle_daemon [])) = calls_of []
  /\ calls_of (snd (set_fan_speed 1 ac "Turbo" idle_daemon [])) = calls_of [].
Proof.
  destruct (unknown_values_are_not_sent 1 ac "Turbo" idle_daemon [])
    as (Hmode & Hspeed).
  destruct not_a_mode_or_speed as (Hm & Hs).
  split; [exact Hm|]. split; [exact Hs|].
  split; [apply (Hmode Hm) | apply (Hspeed Hs)].
Defined.

(** C7 as stated fails: for the unknown mode and speed "turbo" nothing
    fails.  Both calls return normally and the caller is handed no
    error. *)
Lemma unknown_value_returns_normally :
  ~ In (lower "turbo") (keys modes)
  /\ set_mode 1 ac "turbo" idle_daemon []
     = (Normal tt,
        [print (Invalid_mode ["cool"; "heat"; "fan"; "dry"; "auto"]%string)])
  /\ (forall e, fst (set_mode 1 ac "turbo" idle_daemon []) <> Raised e)
  /\ ~ In (lower "turbo") (keys speeds)
  /\ set_fan_speed 1 ac "turbo" idle_daemon []
     = (Normal tt,
        [print (Invalid_speed ["low"; "medium"; "high"; "auto"]%string)])
  /\ (forall e, fst (set_fan_speed 1 ac "turbo" idle_daemon []) <> Raised e).
Proof.
  assert (Hm : ~ In (lower "turbo") (keys modes)).
  { intros H; cbn in H;
      repeat (destruct H as [H|H]; [discriminate H|]); exact H. }
  assert (Hs : ~ In (lower "turbo") (keys speeds)).
  { intros H; cbn in H;
      repeat (destruct H as [H|H]; [discriminate H|]); exact H. }
  split; [exact Hm|]. split; [reflexivity|].
  split; [intros e H; discriminate H|].
  split; [exact Hs|]. split; [reflexivity|].
  intros e H; discriminate H.
Qed.

(** A call whose lower-case form is a key is sent with that key's byte. *)
Lemma set_mode_sends (fuel : nat) (self : ACController) (mode : string)
    (command : Z) (d : daemon) (trace : list event) :
  getitem modes (lower mode) = Some command ->
  set_mode fuel self mode d trace
  = send_nec_command fuel self 0x00 command d
      (trace ++ [print (Setting_mode mode)]).
Proof.
  intros H. unfold set_mode, subscript.
  rewrite (getitem_contains _ _ _ H), H. reflexivity.
Qed.

Lemma set_fan_speed_sends (fuel : nat) (self : ACController) (speed : string)
    (command : Z) (d : daemon) (trace : list event) :
  getitem speeds (lower speed) = Some command ->
  set_fan_speed fuel self speed d trace
  = send_nec_command fuel self 0x00 command d
      (trace ++ [print (Setting_fan_speed speed)]).
Proof.
  intros H. unfold set_fan_speed, subscript.
  rewrite (getitem_contains _ _ _ H), H. reflexivity.
Qed.

Lemma same_calls_after_print (trace : list event) (m m' : message) :
  calls_of (trace ++ [print m]) = calls_of (trace ++ [print m']).
Proof. now rewrite !calls_of_app. Qed.

(** C9. The lookup ignores case.  When the lower-case form of [s] is a key
    of [modes] with byte [command], [set_mode s] and [set_mode (lower s)]
    both send address 0x00 with [command]; they end the same way and make
    the same pigpio calls, and differ only in the spelling they print.
    The same holds for [set_fan_speed] and [speeds]. *)
Theorem lookup_ignores_case (fuel : nat) (self : ACController) (s : string)
    (command : Z) (d : daemon) (trace : list event) :
  (getitem modes (lower s) = Some command ->
     set_mode fuel self s d trace
     = send_nec_command fuel self 0x00 command d
         (trace ++ [print (Setting_mode s)])
     /\ set_mode fuel self (lower s) d trace
        = send_nec_command fuel self 0x00 command d
            (trace ++ [print (Setting_mode (lower s))])
     /\ fst (set_mode fuel self s d trace)
        = fst (set_mode fuel self (lower s) d trace)
     /\ calls_of (snd (set_mode fuel self s d trace))
        = calls_of (snd (set_mode fuel self (lower s) d trace)))
  /\ (getitem speeds (lower s) = Some command ->
        set_fan_speed fuel self s d trace
        = send_nec_command fuel self 0x00 command d
            (trace ++ [print (Setting_fan_speed s)])
        /\ set_fan_speed fuel self (lower s) d trace
           = send_nec_command fuel self 0x00 command d
               (trace ++ [print (Setting_fan_speed (lower s))])
        /\ fst (set_fan_speed fuel self s d trace)
           = fst (set_fan_speed fuel self (lower s) d trace)
        /\ calls_of (snd (set_fan_speed fuel self s d trace))
           = calls_of (snd (set_fan_speed fuel self (lower s) d trace))).
Proof.
  split; intros H.
  - pose proof (set_mode_sends fuel self s command d trace H) as E1.
    pose proof (set_mode_sends fuel self (lower s) command d trace) as E2.
    rewrite lower_idempotent in E2. specialize (E2 H).
    rewrite E1, E2. split; [reflexivity|]. split; [reflexivity|].
    apply determined_send_nec_command, same_calls_after_print.
  - pose proof (set_fan_speed_sends fuel self s command d trace H) as E1.
    pose proof (set_fan_speed_sends fuel self (lower s) command d trace) as E2.
    rewrite lower_idempotent in E2. specialize (E2 H).
    rewrite E1, E2. split; [reflexivity|]. split; [reflexivity|].
    apply determined_send_nec_command, same_calls_after_print.
Qed.

Lemma lookup_ignores_case_witness :
  getitem modes (lower "COOL") = Some 0x30
  /\ lower "Cool" = lower "COOL"
  /\ set_mode 1 ac "COOL" idle_daemon []
     = send_nec_command 1 ac 0x00 0x30 idle_daemon
         [print (Setting_mode "COOL")]
  /\ calls_of (snd (set_mode 1 ac "COOL" idle_daemon []))
     = calls_of (snd (set_mode 1 ac (lower "COOL") idle_daemon []))
  /\ getitem speeds (lower "High") = Some 0x42
  /\ calls_of (snd (set_fan_speed 1 ac "High" idle_daemon []))
     = calls_of (snd (set_fan_speed 1 ac (lower "High") idle_daemon [])).
Proof.
  destruct (lookup_ignores_case 1 ac "COOL" 0x30 idle_daemon [])
    as (Hmode & _).
  destruct (lookup_ignores_case 1 ac "High" 0x42 idle_daemon [])
    as (_ & Hspeed).
  destruct (Hmode eq_refl) as (Hsend & _ & _ & Hcalls).
  destruct (Hspeed eq_refl) as (_ & _ & _ & Hcalls').
  split; [reflexivity|]. split; [reflexivity|].
  split; [exact Hsend|]. split; [exact Hcalls|].
  split; [reflexivity | exact Hcalls'].
Defined.

(** C10. Only the low 8 bits of the address and of the command reach the
    frame.  For non-negative [a] and [c], [send_nec_command a c] builds
    the 67 entries of [send_nec_command (a % 256) (c % 256)] and runs
    exactly as it does; no range check raises: on a daemon that accepts
    every call and stops being busy, the call returns normally whatever
    [a] and [c] are. *)
Theorem only_the_low_byte_is_sent (a c : Z) :
  0 <= a -> 0 <= c ->
  nec_pulses a c = nec_pulses (a mod 256) (c mod 256)
  /\ List.length (nec_pulses a c) = 67%nat
  /\ (forall fuel self d trace,
        send_nec_command fuel self a c d trace
        = send_nec_command fuel self (a mod 256) (c mod 256) d trace)
  /\ (forall fuel self d trace,
        accepting d ->
        (forall before, idle_within d before fuel = true) ->
        fst (send_nec_command fuel self a c d trace) = Normal tt).
Proof.
  intros _ _.
  assert (E : nec_pulses a c = nec_pulses (a mod 256) (c mod 256)).
  { rewrite !nec_pulses_sections.
    rewrite (section_ext one_space zero_space one_space zero_space
               (a mod 256) a),
      (section_ext zero_space one_space zero_space one_space (a mod 256) a),
      (section_ext one_space zero_space one_space zero_space (c mod 256) c),
      (section_ext zero_space one_space zero_space one_space (c mod 256) c);
      try (intros i Hi; now rewrite low_byte_bit by exact Hi).
    reflexivity. }
  split; [exact E|]. split.
  { rewrite nec_pulses_sections, !length_app, !length_section. reflexivity. }
  split.
  - intros fuel self d trace. unfold send_nec_command. now rewrite <- E.
  - intros fuel self d trace. apply send_nec_command_returns.
Qed.

Lemma only_the_low_byte_is_sent_witness :
  0 <= 0x1FF /\ 0 <= 0x130
  /\ nec_pulses 0x1FF 0x130 = nec_pulses 0xFF 0x30
  /\ fst (send_nec_command 1 ac 0x1FF 0x130 idle_daemon []) = Normal tt.
Proof.
  destruct (only_the_low_byte_is_sent 0x1FF 0x130)
    as (Hframe & _ & _ & Hrun); [lia | lia |].
  split; [lia|]. split; [lia|]. split; [exact Hframe|].
  apply Hrun; [exact idle_daemon_accepting | reflexivity].
Defined.

(** ** More about the frame *)

Lemma duration_app (l l' : list Z) :
  duration (l ++ l') = duration l + duration l'.
Proof.
  unfold duration. induction l as [|x l IH]; cbn; [reflexivity|].
  rewrite IH. lia.
Qed.

(** A loop and its inverted twin take the same time together whatever the
    byte is: each bit costs one long and one short space between them. *)
Lemma duration_section_pair (s c v : Z) :
  duration (section s c v) + duration (section c s v)
  = 16 * bit_mark + 8 * (s + c).
Proof.
  unfold section.
  assert (H : forall l : list Z,
             duration (flat_map (fun i => [bit_mark;
                          if Z.testbit v i then s else c]) l)
             + duration (flat_map (fun i => [bit_mark;
                            if Z.testbit v i then c else s]) l)
             = Z.of_nat (List.length l) * (2 * bit_mark + (s + c))).
  { induction l as [|i l IH]; [reflexivity|].
    cbn [flat_map List.length]. rewrite !duration_app, Nat2Z.inj_succ.
    unfold duration at 1 3. cbn [fold_right].
    destruct (Z.testbit v i); lia. }
  rewrite H. cbn [range map seq List.length]. lia.
Qed.

(** X1. Every frame takes the same time, 67980 us, whatever the address
    and the command are. *)
Theorem frame_duration_is_constant (address command : Z) :
  duration (nec_pulses address command) = 67980.
Proof.
  rewrite nec_pulses_sections, !duration_app.
  pose proof (duration_section_pair one_space zero_space address) as Ha.
  pose proof (duration_section_pair one_space zero_space command) as Hc.
  unfold bit_mark, one_space, zero_space in *.
  change (duration [header_mark; header_space]) with 13500.
  change (duration [560]) with 560. lia.
Qed.

(** X2. In every frame the entries at even indices are the marks, 9000
    at index 0 and 560 everywhere else, and the entries at odd indices
    are the spaces, 4500 at index 1 and 560 or 1690 everywhere else. *)
Theorem marks_and_spaces_alternate (address command : Z) (i : nat) :
  (i < 67)%nat ->
  (Nat.even i = true ->
     nth i (nec_pulses address command) 0
     = if (i =? 0)%nat then 9000 else 560)
  /\ (Nat.even i = false ->
        if (i =? 1)%nat
        then nth i (nec_pulses address command) 0 = 4500
        else nth i (nec_pulses address command) 0 = 560
             \/ nth i (nec_pulses address command) 0 = 1690).
Proof.
  intros Hi. rewrite nec_pulses_sections.
  do 67 (destruct i as [|i];
         [split; intros Hev;
          solve [ discriminate Hev
                | reflexivity
                | cbv [Nat.eqb nth app section flat_map range map seq];
                  match goal with
                  | |- context [Z.testbit ?v ?k] =>
                      destruct (Z.testbit v k); [right | left]; reflexivity
                  end
                | cbv [Nat.eqb nth app section flat_map range map seq];
                  match goal with
                  | |- context [Z.testbit ?v ?k] =>
                      destruct (Z.testbit v k); [left | right]; reflexivity
                  end ] |]).
  lia.
Qed.

Lemma marks_and_spaces_alternate_witness :
  (20 < 67)%nat
  /\ nth 20 (nec_pulses 0x00 0x08) 0 = 560
  /\ (21 < 67)%nat
  /\ (nth 21 (nec_pulses 0x00 0x08) 0 = 560
      \/ nth 21 (nec_pulses 0x00 0x08) 0 = 1690).
Proof.
  split; [lia|]. split.
  - apply (proj1 (marks_and_spaces_alternate 0x00 0x08 20 ltac:(lia))).
    reflexivity.
  - split; [lia|].
    apply (proj2 (marks_and_spaces_alternate 0x00 0x08 21 ltac:(lia))).
    reflexivity.
Defined.

Lemma complement8_minus (b : Z) : complement8 b = 255 - b mod 256.
Proof.
  unfold complement8. change 255 with (Z.ones 8) at 1.
  rewrite Z.land_ones by lia. change (2 ^ 8) with 256.
  symmetry. apply Z.mod_unique with (q := - (b / 256) - 1).
  - left. pose proof (Z.mod_pos_bound b 256). lia.
  - unfold Z.lnot. pose proof (Z.div_mod b 256). lia.
Qed.

Lemma decode_address (a c : Z) :
  decode_section (entries 2 16 (nec_pulses a c)) = a mod 256.
Proof.
  now rewrite entries_address, section_encode_byte, decode_encode_byte.
Qed.

Lemma decode_command (a c : Z) :
  decode_section (entries 34 16 (nec_pulses a c)) = c mod 256.
Proof.
  now rewrite entries_command, section_encode_byte, decode_encode_byte.
Qed.

(** X3. A receiver reads the frame back: the address section gives the
    low byte of the address, the command section the low byte of the
    command, and each byte and its inverted copy add up to 255, which is
    the check a NEC receiver makes. *)
Theorem frame_reads_back (address command : Z) :
  decode_section (entries 2 16 (nec_pulses address command))
  = address mod 256
  /\ decode_section (entries 34 16 (nec_pulses address command))
     = command mod 256
  /\ decode_section (entries 2 16 (nec_pulses address command))
     + decode_section (entries 18 16 (nec_pulses address command)) = 255
  /\ decode_section (entries 34 16 (nec_pulses address command))
     + decode_section (entries 50 16 (nec_pulses address command)) = 255.
Proof.
  rewrite decode_address, decode_command.
  rewrite entries_inverted_address, entries_inverted_command.
  rewrite !section_inverted, !decode_complement, !complement8_minus.
  repeat split; lia.
Qed.

Lemma nec_pulses_low_byte (a c : Z) :
  nec_pulses a c = nec_pulses (a mod 256) (c mod 256).
Proof.
  rewrite !nec_pulses_sections.
  rewrite (section_ext one_space zero_space one_space zero_space
             (a mod 256) a),
    (section_ext zero_space one_space zero_space one_space (a mod 256) a),
    (section_ext one_space zero_space one_space zero_space (c mod 256) c),
    (section_ext zero_space one_space zero_space one_space (c mod 256) c);
    try (intros i Hi; now rewrite low_byte_bit by exact Hi).
  reflexivity.
Qed.

(** X4. Two frames are equal exactly when their addresses have the same
    low byte and their commands have the same low byte: distinct bytes
    never share a frame. *)
Theorem frames_differ_by_byte (a c a' c' : Z) :
  nec_pulses a c = nec_pulses a' c'
  <-> a mod 256 = a' mod 256 /\ c mod 256 = c' mod 256.
Proof.
  split.
  - intros H. split.
    + rewrite <- (decode_address a c), <- (decode_address a' c'). now rewrite H.
    + rewrite <- (decode_command a c), <- (decode_command a' c'). now rewrite H.
  - intros [Ha Hc].
    rewrite (nec_pulses_low_byte a c), (nec_pulses_low_byte a' c').
    now rewrite Ha, Hc.
Qed.

(** ** More about [send_raw_code] *)

Lemma even_of_nat (i : nat) : Z.even (Z.of_nat i) = Nat.even i.
Proof.
  induction i as [|i IH]; [reflexivity|].
  rewrite Nat2Z.inj_succ, Z.even_succ, Nat.even_succ.
  now rewrite <- Z.negb_even, <- Nat.negb_even, IH.
Qed.

Lemma nth_error_range (n i : nat) :
  (i < n)%nat -> nth_error (range n) i = Some (Z.of_nat i).
Proof.
  intros Hi. unfold range. apply map_nth_error.
  rewrite nth_error_seq. apply Nat.ltb_lt in Hi. now rewrite Hi.
Qed.

(** X5. The wave built by [send_raw_code] has one pulse per duration, in
    order and with the duration unchanged; the pulses at even positions
    switch the pin on (mask [2 ^ gpio_pin], nothing switched off) and the
    pulses at odd positions switch it off (nothing switched on). *)
Theorem wave_alternates_on_and_off (self : ACController) (pulses : list Z) :
  List.length (wave_of self pulses) = List.length pulses
  /\ map delay (wave_of self pulses) = pulses
  /\ forall i p,
       nth_error (wave_of self pulses) i = Some p ->
       nth_error pulses i = Some (delay p)
       /\ (if Nat.even i
           then gpio_on p = 2 ^ Z.of_N (gpio_pin self) /\ gpio_off p = 0
           else gpio_on p = 0 /\ gpio_off p = 2 ^ Z.of_N (gpio_pin self)).
Proof.
  assert (Hlen : List.length (wave_of self pulses) = List.length pulses).
  { unfold wave_of, range. now rewrite !length_map, length_seq. }
  split; [exact Hlen|]. split; [apply wave_of_delays|].
  intros i p Hp.
  assert (Hi : (i < List.length pulses)%nat).
  { rewrite <- Hlen. apply nth_error_Some. now rewrite Hp. }
  unfold wave_of in Hp.
  rewrite nth_error_map, (nth_error_range _ _ Hi) in Hp. cbn in Hp.
  rewrite <- Zeven_mod, even_of_nat, Nat2Z.id, Z.shiftl_1_l in Hp.
  rewrite (nth_error_nth' pulses 0 Hi).
  revert Hp. destruct (Nat.even i); intros [= <-]; cbn; auto.
Qed.

Lemma wave_alternates_on_and_off_witness :
  nth_error (wave_of ac (nec_pulses 0x00 0x08)) 66
  = Some (mk_pulse 131072 0 560)
  /\ nth_error (nec_pulses 0x00 0x08) 66 = Some 560
  /\ 131072 = 2 ^ Z.of_N (gpio_pin ac).
Proof.
  destruct (wave_alternates_on_and_off ac (nec_pulses 0x00 0x08))
    as (_ & _ & H).
  destruct (H 66%nat (mk_pulse 131072 0 560) eq_refl) as (Hd & Hon & _).
  split; [reflexivity|]. split; [exact Hd | exact Hon].
Defined.

(** ** Taking runs apart *)

Lemma bind_normal {A B : Type} (m : M A) (k : A -> M B) (d : daemon)
    (trace trace' : list event) (b : B) :
  bind m k d trace = (Normal b, trace') ->
  exists a trace1,
    m d trace = (Normal a, trace1) /\ k a d trace1 = (Normal b, trace').
Proof.
  unfold bind. destruct (m d trace) as [[a|e|] trace1]; intros H.
  - now exists a, trace1.
  - discriminate H.
  - discriminate H.
Qed.

Lemma invoke_normal (c : pigpio_call) (d : daemon) (trace trace' : list event)
    (v : Z) :
  invoke c d trace = (Normal v, trace') ->
  d (calls_of trace) c = returns v /\ trace' = trace ++ [call c].
Proof.
  unfold invoke. destruct (d (calls_of trace) c) as [w|e]; intros H.
  - injection H as -> <-. now split.
  - discriminate H.
Qed.

Lemma truthy_false (z : Z) : truthy z = false <-> z = 0.
Proof.
  unfold truthy. destruct (Z.eqb_spec z 0) as [E|E]; cbn; split; intros H.
  - exact E.
  - reflexivity.
  - discriminate H.
  - contradiction.
Qed.

Lemma calls_of_busy_rounds (k : nat) : calls_of (busy_rounds k) = polls k.
Proof. induction k as [|k IH]; cbn; now rewrite ?IH. Qed.

(** How the busy loop can end. *)
Lemma wait_while_busy_runs (fuel : nat) (d : daemon) (trace : list event) :
  exists k,
    (forall j, (j < k)%nat ->
       exists busy,
         d (calls_of trace ++ polls j) wave_tx_busy = returns busy
         /\ busy <> 0)
    /\ match wait_while_busy fuel d trace with
       | (Normal _, trace') =>
           (k < fuel)%nat
           /\ trace' = trace ++ busy_rounds k ++ [call wave_tx_busy]
           /\ d (calls_of trace ++ polls k) wave_tx_busy = returns 0
       | (Raised e, trace') =>
           (k < fuel)%nat
           /\ trace' = trace ++ busy_rounds k ++ [call wave_tx_busy]
           /\ d (calls_of trace ++ polls k) wave_tx_busy = raises e
       | (OutOfFuel, trace') =>
           k = fuel /\ trace' = trace ++ busy_rounds fuel
       end.
Proof.
  revert trace. induction fuel as [|fuel IH]; intros trace.
  - exists O. split; [intros j Hj; lia|].
    cbn. now rewrite app_nil_r.
  - cbn [wait_while_busy]. unfold bind at 1, invoke.
    destruct (d (calls_of trace) wave_tx_busy) as [busy|e] eqn:Hd.
    + destruct (truthy busy) eqn:Hb.
      * unfold bind, emit.
        destruct (IH ((trace ++ [call wave_tx_busy]) ++ [sleep 10]))
          as (k & Hbusy & Hend).
        assert (Hcalls : forall j,
                   calls_of ((trace ++ [call wave_tx_busy]) ++ [sleep 10])
                     ++ polls j
                   = calls_of trace ++ polls (S j)).
        { intros j. rewrite !calls_of_app. cbn.
          now rewrite app_nil_r, <- app_assoc. }
        exists (S k). split.
        -- intros [|j] Hj.
           ++ exists busy. cbn. rewrite app_nil_r. split; [exact Hd|].
              intros ->. discriminate Hb.
           ++ rewrite <- Hcalls. apply Hbusy. lia.
        -- rewrite Hcalls in Hend.
           destruct (wait_while_busy fuel d _) as [[[]|e|] trace'];
             cbn [busy_rounds]; rewrite <- !app_assoc in Hend; cbn in Hend.
           ++ destruct Hend as (Hk & -> & Hlast).
              repeat split; [lia | exact Hlast].
           ++ destruct Hend as (Hk & -> & Hlast).
              repeat split; [lia | exact Hlast].
           ++ destruct Hend as (-> & ->). now split.
      * exists O. split; [intros j Hj; lia|].
        apply truthy_false in Hb. subst busy. cbn.
        rewrite app_nil_r. repeat split; [lia | exact Hd].
    + exists O. split; [intros j Hj; lia|]. cbn.
      rewrite app_nil_r. repeat split; [lia | exact Hd].
Qed.

(** X6. The busy loop of [send_raw_code] polls [wave_tx_busy], sleeps
    10 ms after every busy answer and polls again; it ends at the first
    answer 0, or with the exception a poll raises.  Every earlier poll was
    answered busy, and there is one sleep per busy answer. *)
Theorem busy_loop_sleeps_after_each_busy_answer (fuel : nat) (d : daemon)
    (trace trace' : list event) (o : outcome unit) :
  wait_while_busy fuel d trace = (o, trace') ->
  exists k,
    (forall j, (j < k)%nat ->
       exists busy,
         d (calls_of trace ++ polls j) wave_tx_busy = returns busy
         /\ busy <> 0)
    /\ match o with
       | Normal _ =>
           (k < fuel)%nat
           /\ trace' = trace ++ busy_rounds k ++ [call wave_tx_busy]
           /\ d (calls_of trace ++ polls k) wave_tx_busy = returns 0
       | Raised e =>
           (k < fuel)%nat
           /\ trace' = trace ++ busy_rounds k ++ [call wave_tx_busy]
           /\ d (calls_of trace ++ polls k) wave_tx_busy = raises e
       | OutOfFuel => k = fuel /\ trace' = trace ++ busy_rounds fuel
       end.
Proof.
  intros Hrun. destruct (wait_while_busy_runs fuel d trace) as (k & Hk & H).
  rewrite Hrun in H. now exists k.
Qed.

Lemma busy_loop_sleeps_after_each_busy_answer_witness :
  exists k,
    (forall j, (j < k)%nat ->
       exists busy,
         working_daemon (calls_of [call (wave_send_once 3)] ++ polls j)
           wave_tx_busy = returns busy
         /\ busy <> 0)
    /\ (k < 5)%nat
    /\ [call (wave_send_once 3);
        call wave_tx_busy; sleep 10; call wave_tx_busy; sleep 10;
        call wave_tx_busy]
       = [call (wave_send_once 3)] ++ busy_rounds k ++ [call wave_tx_busy]
    /\ working_daemon (calls_of [call (wave_send_once 3)] ++ polls k)
         wave_tx_busy = returns 0.
Proof.
  exact (busy_loop_sleeps_after_each_busy_answer 5 working_daemon
           [call (wave_send_once 3)] _ (Normal tt) eq_refl).
Defined.

Lemma wait_always_busy (fuel : nat) (d : daemon) (trace : list event) :
  always_busy d -> fst (wait_while_busy fuel d trace) = OutOfFuel.
Proof.
  intros Hbusy. revert trace.
  induction fuel as [|fuel IH]; intros trace; [reflexivity|].
  cbn [wait_while_busy]. unfold bind at 1, invoke.
  destruct (Hbusy (calls_of trace)) as (busy & -> & Hne).
  destruct (truthy busy) eqn:Hb.
  - unfold bind, emit. apply IH.
  - apply truthy_false in Hb. contradiction.
Qed.

(** Run [wave_create] on a daemon that is known to answer it. *)
Ltac create_wave H wave_id Hid :=
  match goal with
  | |- context [bind (invoke wave_create) ?k ?d ?t] =>
      let Hd := fresh "Hd" in
      destruct (H (calls_of t)) as (wave_id & Hd & Hid);
      replace (bind (invoke wave_create) k d t)
        with (k wave_id d (t ++ [call wave_create]))
        by (unfold bind, invoke; now rewrite Hd);
      cbv beta
  end.

Lemma send_raw_code_always_busy (fuel : nat) (self : ACController)
    (pulses : list Z) (d : daemon) (trace : list event) :
  accepting d -> creates_waves d -> always_busy d ->
  fst (send_raw_code fuel self pulses d trace) = OutOfFuel.
Proof.
  intros Hacc Hcreate Hbusy. unfold send_raw_code.
  do 2 next_call Hacc. create_wave Hcreate wave_id Hid.
  replace (wave_id >=? 0) with true by (symmetry; apply Z.geb_le; lia).
  next_call Hacc. unfold bind at 1.
  match goal with
  | |- context [wait_while_busy fuel d ?t] =>
      pose proof (wait_always_busy fuel d t Hbusy) as Hw;
      destruct (wait_while_busy fuel d t) as [o t']
  end.
  cbn [fst] in Hw. now subst o.
Qed.

(** X7. The busy loop has no timeout.  On a daemon that accepts every
    call, hands out a wave id and keeps answering busy, [send_nec_command]
    does not return for any amount of fuel: the run is still polling,
    with the carrier switched on and never switched off. *)
Theorem busy_transmitter_blocks_with_carrier_on (fuel : nat)
    (self : ACController) (address command : Z) (d : daemon)
    (trace : list event) :
  accepting d -> creates_waves d -> always_busy d ->
  exists new,
    send_nec_command fuel self address command d trace
    = (OutOfFuel, trace ++ carrier_on self :: new)
    /\ ~ In (carrier_off self) new.
Proof.
  intros Hacc Hcreate Hbusy.
  assert (Hout : fst (send_nec_command fuel self address command d trace)
                 = OutOfFuel).
  { unfold send_nec_command. next_call Hacc. unfold bind at 1.
    match goal with
    | |- context [send_raw_code fuel self ?p d ?t] =>
        pose proof (send_raw_code_always_busy fuel self p d t
                      Hacc Hcreate Hbusy) as Hraw;
        destruct (send_raw_code fuel self p d t) as [o t']
    end.
    cbn [fst] in Hraw. now subst o. }
  pose proof (send_nec_command_runs fuel self address command d trace) as H.
  destruct (send_nec_command fuel self address command d trace) as [o trace'].
  cbn [fst] in Hout. subst o. destruct H as (new & -> & Hoff).
  now exists new.
Qed.

Lemma busy_daemon_blocks :
  accepting busy_daemon /\ creates_waves busy_daemon
  /\ always_busy busy_daemon.
Proof.
  split; [|split].
  - intros before [| | | | | | | |]; eexists; reflexivity.
  - intros before. exists 0. split; [reflexivity | lia].
  - intros before. exists 1. split; [reflexivity | lia].
Qed.

Lemma busy_transmitter_blocks_with_carrier_on_witness :
  exists new,
    send_nec_command 3 ac 0x00 0x08 busy_daemon []
    = (OutOfFuel, [] ++ carrier_on ac :: new)
    /\ ~ In (carrier_off ac) new.
Proof.
  destruct busy_daemon_blocks as (Hacc & Hcreate & Hbusy).
  exact (busy_transmitter_blocks_with_carrier_on 3 ac 0x00 0x08 busy_daemon []
           Hacc Hcreate Hbusy).
Defined.

(** X8. When [wave_create] answers a negative number, [send_raw_code]
    sends nothing and says nothing: on a daemon that accepts every call,
    [send_nec_command] switches the carrier on, clears, adds and tries to
    create the wave, switches the carrier off and returns normally,
    without [wave_send_once], polling or [wave_delete]. *)
Theorem frame_is_dropped_without_a_wave_id (fuel : nat)
    (self : ACController) (address command : Z) (d : daemon)
    (trace : list event) :
  accepting d -> creates_no_wave d ->
  send_nec_command fuel self address command d trace
  = (Normal tt,
     trace ++ [carrier_on self;
               call wave_clear;
               call (wave_add_generic
                       (wave_of self (nec_pulses address command)));
               call wave_create;
               carrier_off self]).
Proof.
  intros Hacc Hcreate. unfold send_nec_command.
  next_call Hacc. unfold bind at 1, send_raw_code.
  do 2 next_call Hacc. create_wave Hcreate wave_id Hid.
  replace (wave_id >=? 0) with false
    by (symmetry; rewrite Z.geb_leb; apply Z.leb_gt; lia).
  unfold ret at 1. next_call Hacc. unfold ret.
  f_equal. now rewrite <- !app_assoc.
Qed.

Lemma no_id_daemon_creates_no_wave :
  accepting no_id_daemon /\ creates_no_wave no_id_daemon.
Proof.
  split.
  - intros before [| | | | | | | |]; eexists; reflexivity.
  - intros before. exists (-1). split; [reflexivity | lia].
Qed.

Lemma frame_is_dropped_without_a_wave_id_witness :
  send_nec_command 0 ac 0x00 0x08 no_id_daemon []
  = (Normal tt,
     [] ++ [carrier_on ac;
            call wave_clear;
            call (wave_add_generic (wave_of ac (nec_pulses 0x00 0x08)));
            call wave_create;
            carrier_off ac]).
Proof.
  destruct no_id_daemon_creates_no_wave as (Hacc & Hcreate).
  exact (frame_is_dropped_without_a_wave_id 0 ac 0x00 0x08 no_id_daemon []
           Hacc Hcreate).
Defined.

(** X9. Every run of [send_nec_command] that returns normally has one of
    two shapes.  With a wave id [>= 0]: carrier on, [wave_clear],
    [wave_add_generic] of the frame, [wave_create], [wave_send_once] of
    that id, the busy rounds, a last poll, [wave_delete] of the same id,
    carrier off.  With a negative answer of [wave_create]: the shape
    without sending, polling and deleting. *)
Theorem normal_runs_send_and_delete_the_created_wave (fuel : nat)
    (self : ACController) (address command : Z) (d : daemon)
    (trace trace' : list event) :
  send_nec_command fuel self address command d trace = (Normal tt, trace') ->
  exists wave_id,
    d (calls_of trace
         ++ [hardware_PWM (gpio_pin self) (carrier_freq self) 500000;
             wave_clear;
             wave_add_generic (wave_of self (nec_pulses address command))])
      wave_create = returns wave_id
    /\ if wave_id >=? 0
       then exists k,
              (k < fuel)%nat
              /\ trace'
                 = trace
                     ++ [carrier_on self;
                         call wave_clear;
                         call (wave_add_generic
                                 (wave_of self (nec_pulses address command)));
                         call wave_create;
                         call (wave_send_once wave_id)]
                     ++ busy_rounds k
                     ++ [call wave_tx_busy;
                         call (wave_delete wave_id);
                         carrier_off self]
       else trace'
            = trace ++ [carrier_on self;
                        call wave_clear;
                        call (wave_add_generic
                                (wave_of self (nec_pulses address command)));
                        call wave_create;
                        carrier_off self].
Proof.
  intros Hrun. unfold send_nec_command in Hrun.
  apply bind_normal in Hrun as (v0 & t0 & Hon & Hrun).
  apply invoke_normal in Hon as (_ & ->).
  apply bind_normal in Hrun as ([] & t1 & Hraw & Hoff).
  apply bind_normal in Hoff as (v5 & t5 & Hoff & Hret).
  apply invoke_normal in Hoff as (_ & ->).
  injection Hret as <-.
  unfold send_raw_code in Hraw.
  apply bind_normal in Hraw as (v1 & t2 & Hclear & Hraw).
  apply invoke_normal in Hclear as (_ & ->).
  apply bind_normal in Hraw as (v2 & t3 & Hadd & Hraw).
  apply invoke_normal in Hadd as (_ & ->).
  apply bind_normal in Hraw as (wave_id & t4 & Hcreate & Hraw).
  apply invoke_normal in Hcreate as (Hid & ->).
  exists wave_id. split.
  { rewrite !calls_of_app in Hid. cbn in Hid.
    now rewrite <- !app_assoc in Hid. }
  destruct (wave_id >=? 0).
  - apply bind_normal in Hraw as (v3 & t6 & Hsend & Hraw).
    apply invoke_normal in Hsend as (_ & ->).
    apply bind_normal in Hraw as ([] & t7 & Hwait & Hraw).
    apply bind_normal in Hraw as (v4 & t8 & Hdel & Hret).
    apply invoke_normal in Hdel as (_ & ->).
    injection Hret as <-.
    match type of Hwait with
    | wait_while_busy fuel d ?t = _ =>
        destruct (wait_while_busy_runs fuel d t) as (k & _ & Hk)
    end.
    rewrite Hwait in Hk. destruct Hk as (Hlt & -> & _).
    exists k. split; [exact Hlt|].
    unfold carrier_on, carrier_off. now rewrite <- !app_assoc.
  - injection Hraw as <-.
    unfold carrier_on, carrier_off. now rewrite <- !app_assoc.
Qed.

Lemma normal_runs_send_and_delete_the_created_wave_witness :
  exists trace' wave_id,
    send_nec_command 5 ac 0x00 0x08 working_daemon [] = (Normal tt, trace')
    /\ wave_id = 3
    /\ exists k,
         (k < 5)%nat
         /\ trace'
            = [] ++ [carrier_on ac;
                     call wave_clear;
                     call (wave_add_generic
                             (wave_of ac (nec_pulses 0x00 0x08)));
                     call wave_create;
                     call (wave_send_once wave_id)]
                 ++ busy_rounds k
                 ++ [call wave_tx_busy;
                     call (wave_delete wave_id);
                     carrier_off ac].
Proof.
  eexists.
  destruct (normal_runs_send_and_delete_the_created_wave
              5 ac 0x00 0x08 working_daemon [] _ eq_refl)
    as (wave_id & Hid & Hshape).
  injection Hid as <-. exists 3. split; [reflexivity|]. split; [reflexivity|].
  exact Hshape.
Defined.

(** ** The constructor and the commands *)

(** X10. A controller exists only on a connected daemon.  When
    [pigpio.pi()] reports no connection, the constructor raises
    [Exception] and a command chained after it makes no call at all;
    otherwise the controller has the given pin and a 38 kHz carrier, and
    a command sent with it starts with [hardware_PWM(pin, 38000, 500000)]. *)
Theorem controller_needs_a_connection (pin : N) (fuel : nat)
    (address command : Z) (d : daemon) (trace : list event) (connected : Z) :
  d (calls_of trace) pigpio_pi = returns connected ->
  (connected = 0 ->
     (self <- init pin ;; send_nec_command fuel self address command) d trace
     = (Raised
          (Exception "Failed to connect to pigpio daemon. Run: sudo pigpiod"),
        trace ++ [call pigpio_pi]))
  /\ (connected <> 0 ->
        init pin d trace
        = (Normal {| gpio_pin := pin; carrier_freq := 38000 |},
           trace ++ [call pigpio_pi])
        /\ exists more,
             snd ((self <- init pin ;;
                   send_nec_command fuel self address command) d trace)
             = trace ++ [call pigpio_pi;
                         call (hardware_PWM pin 38000 500000)] ++ more).
Proof.
  intros Hd. split; intros Hc.
  - unfold bind, init, bind, invoke. rewrite Hd. subst connected. reflexivity.
  - assert (Hinit : init pin d trace
                    = (Normal {| gpio_pin := pin; carrier_freq := 38000 |},
                       trace ++ [call pigpio_pi])).
    { unfold init, bind, invoke. rewrite Hd.
      destruct (truthy connected) eqn:Ht; [reflexivity|].
      apply truthy_false in Ht. contradiction. }
    split; [exact Hinit|]. unfold bind at 1. rewrite Hinit.
    destruct (send_nec_command_begins fuel
                {| gpio_pin := pin; carrier_freq := 38000 |}
                address command d (trace ++ [call pigpio_pi])) as (more & ->).
    exists more. now rewrite <- app_assoc.
Qed.

Lemma controller_needs_a_connection_witness :
  idle_daemon (calls_of []) pigpio_pi = returns 0
  /\ (self <- init 17 ;; send_nec_command 1 self 0x00 0x08) idle_daemon []
     = (Raised
          (Exception "Failed to connect to pigpio daemon. Run: sudo pigpiod"),
        [] ++ [call pigpio_pi])
  /\ working_daemon (calls_of []) pigpio_pi = returns 1
  /\ init 17 working_daemon [] = (Normal ac, [] ++ [call pigpio_pi]).
Proof.
  split; [reflexivity|]. split.
  - apply (proj1 (controller_needs_a_connection 17 1 0x00 0x08
                    idle_daemon [] 0 eq_refl)). reflexivity.
  - split; [reflexivity|].
    apply (proj2 (controller_needs_a_connection 17 1 0x00 0x08
                    working_daemon [] 1 eq_refl)). lia.
Defined.

Lemma same_frame_same_bytes (a c a' c' : Z) :
  nec_pulses a c = nec_pulses a' c' ->
  a mod 256 = a' mod 256 /\ c mod 256 = c' mod 256.
Proof.
  intros H. split.
  - rewrite <- (decode_address a c), <- (decode_address a' c'). now rewrite H.
  - rewrite <- (decode_command a c), <- (decode_command a' c'). now rewrite H.
Qed.

(** Two runs of [send_nec_command] on an accepting daemon that make the
    same calls have sent the same bytes. *)
Lemma same_calls_same_bytes (fuel fuel' : nat) (self : ACController)
    (a c a' c' : Z) (d : daemon) (t t' : list event) :
  accepting d ->
  calls_of t = calls_of t' ->
  calls_of (snd (send_nec_command fuel self a c d t))
  = calls_of (snd (send_nec_command fuel' self a' c' d t')) ->
  a mod 256 = a' mod 256 /\ c mod 256 = c' mod 256.
Proof.
  intros Hacc Ht H.
  destruct (Hacc (calls_of t)
              (hardware_PWM (gpio_pin self) (carrier_freq self) 500000))
    as [v Hv].
  destruct (Hacc (calls_of (t ++ [carrier_on self])) wave_clear) as [w Hw].
  destruct (Hacc (calls_of t')
              (hardware_PWM (gpio_pin self) (carrier_freq self) 500000))
    as [v' Hv'].
  destruct (Hacc (calls_of (t' ++ [carrier_on self])) wave_clear) as [w' Hw'].
  destruct (send_nec_command_submits fuel self a c d t v w Hv Hw)
    as (rest & E).
  destruct (send_nec_command_submits fuel' self a' c' d t' v' w' Hv' Hw')
    as (rest' & E').
  rewrite E, E', !calls_of_app, Ht in H. apply app_inv_head in H.
  unfold carrier_on in H. cbn [calls_of app] in H.
  apply (f_equal (fun calls =>
                    match nth 2 calls wave_clear with
                    | wave_add_generic wave => map delay wave
                    | _ => []
                    end)) in H.
  cbn [nth] in H. rewrite !wave_of_delays in H.
  now apply same_frame_same_bytes.
Qed.

Lemma set_temperature_accepts (fuel : nat) (self : ACController) (temp : Z)
    (d : daemon) (trace : list event) :
  16 <= temp <= 30 ->
  set_temperature fuel self temp d trace
  = send_nec_command fuel self 0x00 (0x10 + (temp - 16)) d
      (trace ++ [print (Setting_temperature temp)]).
Proof.
  intros H. unfold set_temperature.
  replace ((16 <=? temp) && (temp <=? 30)) with true; [reflexivity|].
  symmetry. apply andb_true_iff. lia.
Qed.

(** X11. Each accepted temperature has a frame of its own: its command
    byte [0x10 + (temp - 16)] fits in 8 bits, and on an accepting daemon
    two accepted temperatures that lead to the same pigpio calls are the
    same temperature. *)
Theorem temperatures_have_distinct_frames (fuel : nat) (self : ACController)
    (t1 t2 : Z) (d : daemon) (trace : list event) :
  accepting d ->
  16 <= t1 <= 30 -> 16 <= t2 <= 30 ->
  0x10 <= 0x10 + (t1 - 16) <= 0x1E
  /\ (calls_of (snd (set_temperature fuel self t1 d trace))
      = calls_of (snd (set_temperature fuel self t2 d trace)) ->
      t1 = t2).
Proof.
  intros Hacc H1 H2. split; [lia|].
  rewrite !set_temperature_accepts by assumption. intros H.
  apply same_calls_same_bytes in H as [_ H];
    [| exact Hacc | apply same_calls_after_print].
  rewrite !Z.mod_small in H by lia. lia.
Qed.

Lemma temperatures_have_distinct_frames_witness :
  accepting idle_daemon /\ 16 <= 21 <= 30 /\ 16 <= 22 <= 30
  /\ calls_of (snd (set_temperature 1 ac 21 idle_daemon []))
     <> calls_of (snd (set_temperature 1 ac 22 idle_daemon [])).
Proof.
  split; [exact idle_daemon_accepting|]. split; [lia|]. split; [lia|].
  intros H.
  apply (proj2 (temperatures_have_distinct_frames 1 ac 21 22 idle_daemon []
                  idle_daemon_accepting ltac:(lia) ltac:(lia))) in H.
  discriminate H.
Defined.

Lemma modes_bytes (key : string) (v : Z) :
  getitem modes key = Some v -> 0x30 <= v <= 0x34.
Proof.
  unfold modes. cbn [getitem].
  repeat (destruct (String.eqb key _); [intros [= <-]; lia|]).
  discriminate.
Qed.

Lemma speeds_bytes (key : string) (v : Z) :
  getitem speeds key = Some v -> 0x40 <= v <= 0x43.
Proof.
  unfold speeds. cbn [getitem].
  repeat (destruct (String.eqb key _); [intros [= <-]; lia|]).
  discriminate.
Qed.

(** X12. Every mode or fan speed whose lower-case form is a key of the
    table is sent: the lookup behind the guard finds a byte (no KeyError),
    the byte is one of 0x30-0x34 for a mode and of 0x40-0x43 for a fan
    speed, and the call prints and sends address 0x00 with that byte. *)
Theorem known_values_are_sent (fuel : nat) (self : ACController)
    (value : string) (d : daemon) (trace : list event) :
  (In (lower value) (keys modes) ->
     exists command,
       getitem modes (lower value) = Some command
       /\ 0x30 <= command <= 0x34
       /\ set_mode fuel self value d trace
          = send_nec_command fuel self 0x00 command d
              (trace ++ [print (Setting_mode value)]))
  /\ (In (lower value) (keys speeds) ->
        exists command,
          getitem speeds (lower value) = Some command
          /\ 0x40 <= command <= 0x43
          /\ set_fan_speed fuel self value d trace
             = send_nec_command fuel self 0x00 command d
                 (trace ++ [print (Setting_fan_speed value)])).
Proof.
  split; intros Hin; apply contains_In, contains_getitem in Hin as [v Hv];
    exists v; (split; [exact Hv|]); split.
  - now apply modes_bytes in Hv.
  - now apply set_mode_sends.
  - now apply speeds_bytes in Hv.
  - now apply set_fan_speed_sends.
Qed.

Lemma known_values_are_sent_witness :
  In (lower "Dry") (keys modes)
  /\ set_mode 1 ac "Dry" idle_daemon []
     = send_nec_command 1 ac 0x00 0x33 idle_daemon [print (Setting_mode "Dry")]
  /\ In (lower "MEDIUM") (keys speeds)
  /\ set_fan_speed 1 ac "MEDIUM" idle_daemon []
     = send_nec_command 1 ac 0x00 0x41 idle_daemon
         [print (Setting_fan_speed "MEDIUM")].
Proof.
  assert (Hm : In (lower "Dry") (keys modes)) by (cbn; auto 6).
  assert (Hs : In (lower "MEDIUM") (keys speeds)) by (cbn; auto 6).
  destruct (known_values_are_sent 1 ac "Dry" idle_daemon []) as (Hmode & _).
  destruct (known_values_are_sent 1 ac "MEDIUM" idle_daemon [])
    as (_ & Hspeed).
  destruct (Hmode Hm) as (cm & Hcm & _ & Em).
  destruct (Hspeed Hs) as (cs & Hcs & _ & Es).
  injection Hcm as <-. injection Hcs as <-.
  split; [exact Hm|]. split; [exact Em|]. split; [exact Hs | exact Es].
Defined.

Lemma modes_keys_by_byte (k k' : string) (v : Z) :
  getitem modes k = Some v -> getitem modes k' = Some v -> k = k'.
Proof.
  unfold modes. cbn [getitem].
  repeat match goal with
         | |- context [String.eqb ?x ?key] => destruct (String.eqb_spec x key)
         end;
    congruence.
Qed.

Lemma speeds_keys_by_byte (k k' : string) (v : Z) :
  getitem speeds k = Some v -> getitem speeds k' = Some v -> k = k'.
Proof.
  unfold speeds. cbn [getitem].
  repeat match goal with
         | |- context [String.eqb ?x ?key] => destruct (String.eqb_spec x key)
         end;
    congruence.
Qed.

(** X13. Two known modes that lead to the same pigpio calls on an
    accepting daemon are the same mode up to case, and likewise two known
    fan speeds: no two keys of a table share a frame. *)
Theorem known_values_have_distinct_frames (fuel : nat) (self : ACController)
    (s1 s2 : string) (d : daemon) (trace : list event) :
  accepting d ->
  (In (lower s1) (keys modes) -> In (lower s2) (keys modes) ->
   calls_of (snd (set_mode fuel self s1 d trace))
   = calls_of (snd (set_mode fuel self s2 d trace)) ->
   lower s1 = lower s2)
  /\ (In (lower s1) (keys speeds) -> In (lower s2) (keys speeds) ->
      calls_of (snd (set_fan_speed fuel self s1 d trace))
      = calls_of (snd (set_fan_speed fuel self s2 d trace)) ->
      lower s1 = lower s2).
Proof.
  intros Hacc. split; intros H1 H2 Hcalls.
  - apply contains_In, contains_getitem in H1 as [v1 Hv1].
    apply contains_In, contains_getitem in H2 as [v2 Hv2].
    rewrite (set_mode_sends _ _ _ _ _ _ Hv1),
      (set_mode_sends _ _ _ _ _ _ Hv2) in Hcalls.
    apply same_calls_same_bytes in Hcalls as [_ H];
      [| exact Hacc | apply same_calls_after_print].
    pose proof (modes_bytes _ _ Hv1). pose proof (modes_bytes _ _ Hv2).
    rewrite !Z.mod_small in H by lia. subst v2.
    exact (modes_keys_by_byte _ _ _ Hv1 Hv2).
  - apply contains_In, contains_getitem in H1 as [v1 Hv1].
    apply contains_In, contains_getitem in H2 as [v2 Hv2].
    rewrite (set_fan_speed_sends _ _ _ _ _ _ Hv1),
      (set_fan_speed_sends _ _ _ _ _ _ Hv2) in Hcalls.
    apply same_calls_same_bytes in Hcalls as [_ H];
      [| exact Hacc | apply same_calls_after_print].
    pose proof (speeds_bytes _ _ Hv1). pose proof (speeds_bytes _ _ Hv2).
    rewrite !Z.mod_small in H by lia. subst v2.
    exact (speeds_keys_by_byte _ _ _ Hv1 Hv2).
Qed.

Lemma known_values_have_distinct_frames_witness :
  accepting idle_daemon
  /\ In (lower "Cool") (keys modes) /\ In (lower "HEAT") (keys modes)
  /\ calls_of (snd (set_mode 1 ac "Cool" idle_daemon []))
     <> calls_of (snd (set_mode 1 ac "HEAT" idle_daemon [])).
Proof.
  assert (H1 : In (lower "Cool") (keys modes)) by (cbn; auto 6).
  assert (H2 : In (lower "HEAT") (keys modes)) by (cbn; auto 6).
  split; [exact idle_daemon_accepting|]. split; [exact H1|].
  split; [exact H2|]. intros H.
  apply (proj1 (known_values_have_distinct_frames 1 ac "Cool" "HEAT"
                  idle_daemon [] idle_daemon_accepting) H1 H2) in H.
  discriminate H.
Defined.

(** ** What the commands never do *)

Lemma adds_only_confined {A : Type} (P : event -> Prop) (m : M A) :
  confined P m -> adds_only P m.
Proof.
  intros Hm d trace. destruct (Hm d trace) as (new & Htr & HP & _).
  now exists new.
Qed.

Lemma adds_only_bind {A B : Type} (P : event -> Prop) (m : M A)
    (k : A -> M B) :
  adds_only P m -> (forall a, adds_only P (k a)) -> adds_only P (bind m k).
Proof.
  intros Hm Hk d trace. unfold bind.
  destruct (Hm d trace) as (new & Htr & HP).
  destruct (m d trace) as [[a|e|] trace1]; cbn [snd] in Htr; subst trace1.
  - destruct (Hk a d (trace ++ new)) as (new' & -> & HP').
    exists (new ++ new'). rewrite app_assoc. split; [reflexivity|].
    now apply Forall_app.
  - now exists new.
  - now exists new.
Qed.

Lemma adds_only_pure {A : Type} (P : event -> Prop) (o : outcome A) :
  adds_only P (fun _ trace => (o, trace)).
Proof. intros d trace. exists []. cbn. now rewrite app_nil_r. Qed.

Lemma adds_only_print (P : event -> Prop) (m : message) :
  P (print m) -> adds_only P (emit (print m)).
Proof. intros H. apply adds_only_confined. now apply confined_emit. Qed.

Lemma send_raw_code_keeps_connection (fuel : nat) (self : ACController)
    (pulses : list Z) :
  confined keeps_connection (send_raw_code fuel self pulses).
Proof.
  assert (Hwait : forall n, confined keeps_connection (wait_while_busy n)).
  { induction n as [|n IH]; cbn [wait_while_busy].
    - apply confined_out_of_fuel.
    - apply confined_bind; [now apply confined_invoke | intros busy].
      destruct (truthy busy); [|apply confined_ret].
      apply confined_bind; [now apply confined_emit | intros _; exact IH]. }
  unfold send_raw_code.
  repeat (apply confined_bind; [now apply confined_invoke | intros ?]).
  destruct (_ >=? 0); [|apply confined_ret].
  apply confined_bind; [now apply confined_invoke | intros _].
  apply confined_bind; [apply Hwait | intros _].
  apply confined_bind; [now apply confined_invoke | intros _].
  apply confined_ret.
Qed.

Lemma send_nec_command_keeps_connection (fuel : nat) (self : ACController)
    (address command : Z) :
  adds_only keeps_connection (send_nec_command fuel self address command).
Proof.
  apply adds_only_confined. unfold send_nec_command.
  apply confined_bind; [now apply confined_invoke | intros _].
  apply confined_bind; [apply send_raw_code_keeps_connection | intros _].
  apply confined_bind; [now apply confined_invoke | intros _].
  apply confined_ret.
Qed.

(** X14. No command opens or closes the connection to the daemon:
    whatever the daemon answers, [power_on], [power_off],
    [set_temperature], [set_mode] and [set_fan_speed] add only prints,
    sleeps, [hardware_PWM] and wave calls to the trace, never
    [pigpio.pi()] and never [stop]; [stop] is what [cleanup] calls, once. *)
Theorem commands_keep_the_connection (fuel : nat) (self : ACController)
    (temp : Z) (value : string) :
  adds_only keeps_connection (power_on fuel self)
  /\ adds_only keeps_connection (power_off fuel self)
  /\ adds_only keeps_connection (set_temperature fuel self temp)
  /\ adds_only keeps_connection (set_mode fuel self value)
  /\ adds_only keeps_connection (set_fan_speed fuel self value)
  /\ (forall d trace, snd (cleanup self d trace) = trace ++ [call stop]).
Proof.
  repeat split.
  - apply adds_only_bind; [now apply adds_only_print | intros _].
    apply send_nec_command_keeps_connection.
  - apply adds_only_bind; [now apply adds_only_print | intros _].
    apply send_nec_command_keeps_connection.
  - unfold set_temperature. destruct (negb _).
    + apply adds_only_bind; [now apply adds_only_print | intros _].
      apply adds_only_pure.
    + apply adds_only_bind; [now apply adds_only_print | intros _].
      apply send_nec_command_keeps_connection.
  - unfold set_mode. destruct (negb _).
    + apply adds_only_bind; [now apply adds_only_print | intros _].
      apply adds_only_pure.
    + apply adds_only_bind; [now apply adds_only_print | intros _].
      apply adds_only_bind; [|intros c; apply send_nec_command_keeps_connection].
      unfold subscript. destruct (getitem _ _); apply adds_only_pure.
  - unfold set_fan_speed. destruct (negb _).
    + apply adds_only_bind; [now apply adds_only_print | intros _].
      apply adds_only_pure.
    + apply adds_only_bind; [now apply adds_only_print | intros _].
      apply adds_only_bind; [|intros c; apply send_nec_command_keeps_connection].
      unfold subscript. destruct (getitem _ _); apply adds_only_pure.
  - intros d trace. unfold cleanup, bind, invoke.
    now destruct (d (calls_of trace) stop).
Qed.

(** ** The wave of a frame *)

Lemma nth_error_wave_of (self : ACController) (pulses : list Z) (i : nat) :
  (i < List.length pulses)%nat ->
  nth_error (wave_of self pulses) i
  = Some (if Nat.even i
          then mk_pulse (2 ^ Z.of_N (gpio_pin self)) 0 (nth i pulses 0)
          else mk_pulse 0 (2 ^ Z.of_N (gpio_pin self)) (nth i pulses 0)).
Proof.
  intros Hi. unfold wave_of.
  rewrite nth_error_map, (nth_error_range _ _ Hi). cbn [option_map].
  now rewrite <- Zeven_mod, even_of_nat, Nat2Z.id, Z.shiftl_1_l.
Qed.

Lemma length_nec_pulses (a c : Z) : List.length (nec_pulses a c) = 67%nat.
Proof.
  rewrite nec_pulses_sections, !length_app, !length_section. reflexivity.
Qed.

(** X15. The wave that [send_nec_command] hands to the daemon has 67
    pulses; the first switches the pin on for 9000 us, the second switches
    it off for 4500 us, and the last one switches the pin on for 560 us:
    the wave ends on a mark, and no pulse of it switches the pin off
    afterwards. *)
Theorem frame_wave_ends_with_the_pin_on (self : ACController)
    (address command : Z) :
  List.length (wave_of self (nec_pulses address command)) = 67%nat
  /\ nth_error (wave_of self (nec_pulses address command)) 0
     = Some (mk_pulse (2 ^ Z.of_N (gpio_pin self)) 0 9000)
  /\ nth_error (wave_of self (nec_pulses address command)) 1
     = Some (mk_pulse 0 (2 ^ Z.of_N (gpio_pin self)) 4500)
  /\ nth_error (wave_of self (nec_pulses address command)) 66
     = Some (mk_pulse (2 ^ Z.of_N (gpio_pin self)) 0 560)
  /\ nth_error (wave_of self (nec_pulses address command)) 67 = None.
Proof.
  assert (Hlen : List.length (wave_of self (nec_pulses address command))
                 = 67%nat).
  { unfold wave_of, range.
    now rewrite !length_map, length_seq, length_nec_pulses. }
  split; [exact Hlen|].
  rewrite !nth_error_wave_of by (rewrite length_nec_pulses; lia).
  assert (Hend : nth_error (wave_of self (nec_pulses address command)) 67
                 = None) by (apply nth_error_None; rewrite Hlen; lia).
  rewrite Hend, nec_pulses_sections. repeat split.
Qed.

Lemma frames_differ_by_byte_witness :
  0x100 mod 256 = 0x00 mod 256 /\ 0x108 mod 256 = 0x08 mod 256
  /\ nec_pulses 0x100 0x108 = nec_pulses 0x00 0x08.
Proof.
  split; [reflexivity|]. split; [reflexivity|].
  apply (proj2 (frames_differ_by_byte 0x100 0x108 0x00 0x08)).
  split; reflexivity.
Defined.

(** ** The carrier across a whole run *)

Lemma bind_out_of_fuel {A B : Type} (m : M A) (k : A -> M B) (d : daemon)
    (trace trace' : list event) :
  bind m k d trace = (OutOfFuel, trace') ->
  m d trace = (OutOfFuel, trace')
  \/ exists a trace1,
       m d trace = (Normal a, trace1) /\ k a d trace1 = (OutOfFuel, trace').
Proof.
  unfold bind. destruct (m d trace) as [[a|e|] trace1]; intros H.
  - right. now exists a, trace1.
  - discriminate H.
  - left. now injection H as ->.
Qed.

Lemma invoke_not_out_of_fuel (c : pigpio_call) (d : daemon)
    (trace trace' : list event) :
  invoke c d trace <> (OutOfFuel, trace').
Proof.
  unfold invoke. destruct (d (calls_of trace) c); intros H; discriminate H.
Qed.

(** A run of [send_nec_command] that has not ended has sent the wave and
    has had every poll answered busy. *)
Lemma send_nec_command_still_polling (fuel : nat) (self : ACController)
    (address command : Z) (d : daemon) (trace trace' : list event) :
  send_nec_command fuel self address command d trace = (OutOfFuel, trace') ->
  exists wave_id,
    trace'
    = trace ++ [carrier_on self;
                call wave_clear;
                call (wave_add_generic
                        (wave_of self (nec_pulses address command)));
                call wave_create;
                call (wave_send_once wave_id)]
            ++ busy_rounds fuel
    /\ forall j, (j < fuel)%nat ->
         exists busy,
           d (calls_of trace
                ++ [hardware_PWM (gpio_pin self) (carrier_freq self) 500000;
                    wave_clear;
                    wave_add_generic
                      (wave_of self (nec_pulses address command));
                    wave_create;
                    wave_send_once wave_id]
                ++ polls j)
             wave_tx_busy = returns busy
           /\ busy <> 0.
Proof.
  intros Hrun. unfold send_nec_command in Hrun.
  apply bind_out_of_fuel in Hrun as [H | (v0 & t0 & Hon & Hrun)];
    [now apply invoke_not_out_of_fuel in H|].
  apply invoke_normal in Hon as (_ & ->).
  apply bind_out_of_fuel in Hrun as [Hraw | ([] & t1 & _ & Hoff)].
  2:{ apply bind_out_of_fuel in Hoff as [H | (v & t & _ & H)];
        [now apply invoke_not_out_of_fuel in H | discriminate H]. }
  unfold send_raw_code in Hraw.
  apply bind_out_of_fuel in Hraw as [H | (v1 & t2 & Hclear & Hraw)];
    [now apply invoke_not_out_of_fuel in H|].
  apply invoke_normal in Hclear as (_ & ->).
  apply bind_out_of_fuel in Hraw as [H | (v2 & t3 & Hadd & Hraw)];
    [now apply invoke_not_out_of_fuel in H|].
  apply invoke_normal in Hadd as (_ & ->).
  apply bind_out_of_fuel in Hraw as [H | (wave_id & t4 & Hcreate & Hraw)];
    [now apply invoke_not_out_of_fuel in H|].
  apply invoke_normal in Hcreate as (_ & ->).
  destruct (wave_id >=? 0); [|discriminate Hraw].
  apply bind_out_of_fuel in Hraw as [H | (v3 & t5 & Hsend & Hraw)];
    [now apply invoke_not_out_of_fuel in H|].
  apply invoke_normal in Hsend as (_ & ->).
  apply bind_out_of_fuel in Hraw as [Hwait | ([] & t6 & _ & Hdel)].
  2:{ apply bind_out_of_fuel in Hdel as [H | (v & t & _ & H)];
        [now apply invoke_not_out_of_fuel in H | discriminate H]. }
  exists wave_id.
  match type of Hwait with
  | wait_while_busy fuel d ?t = _ =>
      destruct (wait_while_busy_runs fuel d t) as (k & Hbusy & Hk)
  end.
  rewrite Hwait in Hk. destruct Hk as (-> & ->).
  split.
  - unfold carrier_on. now rewrite <- !app_assoc.
  - intros j Hj. destruct (Hbusy j Hj) as (busy & Hd & Hne).
    exists busy. split; [|exact Hne].
    rewrite !calls_of_app in Hd. cbn [calls_of app] in Hd.
    now rewrite <- !app_assoc in Hd.
Qed.

(** C6, as the code has it.  [send_nec_command] switches the carrier off
    on the success path only.  On a daemon that answers every call without
    raising and stops answering busy within the polls the run may make,
    the call does return normally, with the carrier switched on first and
    off last.  Every run, on any daemon, ends in one of three ways.
    Returning normally: carrier on first, carrier off last, no carrier-off
    in between.  Raising: the run stops at the call that raised, with the
    daemon's exception unchanged, and no carrier-off call was made before
    it, so a failure of carrier activation or of pulse transmission leaves
    the carrier as it was (there is no handler around the transmission).
    Not ending: the wave was sent, every poll was answered busy, and the
    carrier is on and was never switched off (the loop has no timeout). *)
Theorem carrier_off_follows_success_only (fuel : nat) (self : ACController)
    (address command : Z) (d : daemon) (trace : list event) :
  (accepting d ->
   (forall before, idle_within d before fuel = true) ->
   exists mid,
     send_nec_command fuel self address command d trace
     = (Normal tt, trace ++ [carrier_on self] ++ mid ++ [carrier_off self])
     /\ ~ In (carrier_off self) mid)
  /\ (forall o trace',
        send_nec_command fuel self address command d trace = (o, trace') ->
        (o = Normal tt ->
           exists mid,
             trace' = trace ++ [carrier_on self] ++ mid ++ [carrier_off self]
             /\ ~ In (carrier_off self) mid)
        /\ (forall e, o = Raised e ->
              exists before c,
                trace' = trace ++ before ++ [call c]
                /\ d (calls_of (trace ++ before)) c = raises e
                /\ ~ In (carrier_off self) before
                /\ (call c <> carrier_off self ->
                    ~ In (carrier_off self) (before ++ [call c])))
        /\ (o = OutOfFuel ->
              exists wave_id new,
                trace' = trace ++ carrier_on self :: new
                /\ new = [call wave_clear;
                          call (wave_add_generic
                                  (wave_of self (nec_pulses address command)));
                          call wave_create;
                          call (wave_send_once wave_id)]
                         ++ busy_rounds fuel
                /\ ~ In (carrier_off self) new
                /\ forall j, (j < fuel)%nat ->
                     exists busy,
                       d (calls_of trace
                            ++ [hardware_PWM (gpio_pin self)
                                  (carrier_freq self) 500000;
                                wave_clear;
                                wave_add_generic
                                  (wave_of self
                                     (nec_pulses address command));
                                wave_create;
                                wave_send_once wave_id]
                            ++ polls j)
                         wave_tx_busy = returns busy
                       /\ busy <> 0)).
Proof.
  pose proof (send_nec_command_runs fuel self address command d trace) as H.
  split.
  - intros Hacc Hidle.
    pose proof (send_nec_command_returns fuel self address command d trace
                  Hacc Hidle) as Hret.
    destruct (send_nec_command fuel self address command d trace)
      as [o trace'].
    cbn [fst] in Hret. subst o. destruct H as (mid & -> & Hmid).
    now exists mid.
  - intros o trace' Hrun. rewrite Hrun in H. split; [|split].
    + intros ->. exact H.
    + intros e ->. destruct H as (before & c & Htr & Hd & Hoff).
      exists before, c. repeat split; trivial.
      intros Hc [Hin|[Hin|[]]]%in_app_or; [now apply Hoff | now apply Hc].
    + intros ->. destruct H as (new & Htr & Hoff).
      destruct (send_nec_command_still_polling fuel self address command
                  d trace trace' Hrun) as (wave_id & Htr' & Hbusy).
      exists wave_id, new. split; [exact Htr|]. split; [|split].
      * rewrite Htr in Htr'. apply app_inv_head in Htr'.
        now injection Htr' as ->.
      * exact Hoff.
      * exact Hbusy.
Qed.

Lemma carrier_off_follows_success_only_witness :
  (accepting idle_daemon
   /\ (forall before, idle_within idle_daemon before 1 = true)
   /\ exists mid,
        send_nec_command 1 ac 0x00 0x08 idle_daemon []
        = (Normal tt, [] ++ [carrier_on ac] ++ mid ++ [carrier_off ac])
        /\ ~ In (carrier_off ac) mid)
  /\ (exists trace',
        send_nec_command 1 ac 0x00 0x08 no_wave_daemon []
        = (Raised (pigpio_error (-67)), trace')
        /\ exists before c,
             trace' = [] ++ before ++ [call c]
             /\ no_wave_daemon (calls_of ([] ++ before)) c
                = raises (pigpio_error (-67))
             /\ ~ In (carrier_off ac) before
             /\ (call c <> carrier_off ac ->
                 ~ In (carrier_off ac) (before ++ [call c])))
  /\ (exists trace',
        send_nec_command 2 ac 0x00 0x08 busy_daemon [] = (OutOfFuel, trace')
        /\ exists new,
             trace' = [] ++ carrier_on ac :: new
             /\ ~ In (carrier_off ac) new).
Proof.
  split; [|split].
  - split; [exact idle_daemon_accepting|].
    split; [intros before; reflexivity|].
    apply (proj1 (carrier_off_follows_success_only
                    1 ac 0x00 0x08 idle_daemon [])).
    + exact idle_daemon_accepting.
    + intros before. reflexivity.
  - eexists. split; [reflexivity|].
    refine (proj1 (proj2 (proj2 (carrier_off_follows_success_only
                                   1 ac 0x00 0x08 no_wave_daemon [])
                            (Raised (pigpio_error (-67))) _ _)) _ eq_refl).
    reflexivity.
  - eexists. split; [reflexivity|].
    destruct (proj2 (proj2 (proj2 (carrier_off_follows_success_only
                                     2 ac 0x00 0x08 busy_daemon [])
                              OutOfFuel _ eq_refl)) eq_refl)
      as (wave_id & new & Htr & _ & Hoff & _).
    exists new. split; [exact Htr | exact Hoff].
Defined.
